(** * ai-scheduler: the slot-search engine of [scheduler.py]

    A shallow embedding of [src/scheduler.py] and the properties its
    specification states about it.

    Time is counted in microseconds, the resolution of Python's [datetime].
    An aware [datetime] is its wall-clock reading together with the UTC offset
    of its [tzinfo]; Python orders two aware datetimes by their UTC instants,
    and so does [dt_ltb].  The [pytz] zone America/New_York enters through two
    functions, [fromutc] and [localize], which are section variables: every
    theorem holds for any zone rule.  [datetime.now] is an argument, [now].

    Instants and durations are unbounded integers.  Range errors of
    [datetime] (years outside 1..9999) and of [timedelta] are modelled where
    the code catches them, in [parse_ics]; elsewhere a statement that depends
    on them names the range it holds in. *)

From Stdlib Require Import ZArith List Bool String Lia.
Import ListNotations.
Open Scope Z_scope.

(** ** Time units *)

Definition us_per_second : Z := 1000000.
Definition us_per_minute : Z := 60 * us_per_second.
Definition us_per_hour : Z := 60 * us_per_minute.
Definition us_per_day : Z := 24 * us_per_hour.

(** [timedelta(minutes=n)], [timedelta(weeks=n)] *)
Definition timedelta_minutes (n : Z) : Z := n * us_per_minute.
Definition timedelta_weeks (n : Z) : Z := n * 7 * us_per_day.

(** ** Aware datetimes *)

Record datetime : Type := mkdt {
  wall : Z;        (* wall-clock microseconds since the day of ordinal 0 *)
  utcoffset : Z    (* microseconds east of UTC *)
}.

Definition utc (d : datetime) : Z := wall d - utcoffset d.

Definition dt_ltb (a b : datetime) : bool := utc a <? utc b.
Definition dt_gtb (a b : datetime) : bool := dt_ltb b a.
Definition dt_leb (a b : datetime) : bool := negb (dt_ltb b a).
Definition dt_geb (a b : datetime) : bool := negb (dt_ltb a b).

(** [d + timedelta]: pytz datetimes keep their [tzinfo] under arithmetic. *)
Definition dt_add (d : datetime) (delta : Z) : datetime :=
  mkdt (wall d + delta) (utcoffset d).

(** [d.date()] as a proleptic Gregorian ordinal, and the time of day. *)
Definition toordinal (d : datetime) : Z := wall d / us_per_day.
Definition time_of_day (d : datetime) : Z := wall d mod us_per_day.

(** [datetime.time] *)
Record time : Type := mktime {
  hour : Z;
  minute : Z;
  second : Z;
  microsecond : Z
}.

Definition time_valid (t : time) : Prop :=
  0 <= hour t < 24 /\ 0 <= minute t < 60 /\ 0 <= second t < 60
  /\ 0 <= microsecond t < us_per_second.

Definition time_us (t : time) : Z :=
  hour t * us_per_hour + minute t * us_per_minute
  + second t * us_per_second + microsecond t.

(** [datetime.combine(date, time)], naive: the wall-clock reading. *)
Definition combine (ordinal : Z) (t : time) : Z :=
  ordinal * us_per_day + time_us t.

(** ** Events and slots *)

Record Event : Type := mkEvent {
  summary : string;
  ev_start : datetime;
  ev_end : datetime
}.

Record Slot : Type := mkSlot {
  start : datetime;
  end_ : datetime
}.

(** ** Conflict Detector: [has_conflict] *)

Definition buffer_time : Z := timedelta_minutes 15.

Definition slot_start (slot : Slot) : datetime :=
  dt_add (start slot) (- buffer_time).
Definition slot_end (slot : Slot) : datetime :=
  dt_add (end_ slot) buffer_time.

Fixpoint has_conflict (slot : Slot) (existing_events : list Event) : bool :=
  match existing_events with
  | [] => false
  | event :: rest =>
      if dt_ltb (ev_end event) (slot_start slot)
         || dt_gtb (ev_start event) (slot_end slot)
      then has_conflict slot rest
      else if dt_ltb (slot_start slot) (ev_end event)
              && dt_gtb (slot_end slot) (ev_start event)
      then true
      else has_conflict slot rest
  end.

(** The detector as the specification words it: the open-interval overlap
    test applied to every event, with no pre-check. *)
Definition overlaps (slot : Slot) (event : Event) : bool :=
  dt_ltb (slot_start slot) (ev_end event)
  && dt_gtb (slot_end slot) (ev_start event).

Definition has_conflict_plain (slot : Slot) (events : list Event) : bool :=
  existsb (overlaps slot) events.

(** ** The proleptic Gregorian calendar of Python's [datetime]

    [date.toordinal], [date.fromordinal] and [date.weekday], as the standard
    library computes them; ordinal 1 is 0001-01-01, Monday is weekday 0. *)

Definition is_leap (year : Z) : bool :=
  (year mod 4 =? 0) && (negb (year mod 100 =? 0) || (year mod 400 =? 0)).

Definition DAYS_IN_MONTH (month : Z) : Z :=
  match month with
  | 1 => 31 | 2 => 28 | 3 => 31 | 4 => 30 | 5 => 31 | 6 => 30
  | 7 => 31 | 8 => 31 | 9 => 30 | 10 => 31 | 11 => 30 | 12 => 31
  | _ => -1
  end.

Definition DAYS_BEFORE_MONTH (month : Z) : Z :=
  match month with
  | 1 => 0 | 2 => 31 | 3 => 59 | 4 => 90 | 5 => 120 | 6 => 151
  | 7 => 181 | 8 => 212 | 9 => 243 | 10 => 273 | 11 => 304 | 12 => 334
  | _ => -1
  end.

Definition days_before_year (year : Z) : Z :=
  let y := year - 1 in
  y * 365 + y / 4 - y / 100 + y / 400.

Definition days_in_month (year month : Z) : Z :=
  if (month =? 2) && is_leap year then 29 else DAYS_IN_MONTH month.

Definition days_before_month (year month : Z) : Z :=
  DAYS_BEFORE_MONTH month + (if (month >? 2) && is_leap year then 1 else 0).

Definition ymd2ord (year month day : Z) : Z :=
  days_before_year year + days_before_month year month + day.

Definition DI400Y : Z := 146097.
Definition DI100Y : Z := 36524.
Definition DI4Y : Z := 1461.

Definition ord2ymd (n : Z) : Z * Z * Z :=
  let n := n - 1 in
  let n400 := n / DI400Y in
  let n := n mod DI400Y in
  let year := n400 * 400 + 1 in
  let n100 := n / DI100Y in
  let n := n mod DI100Y in
  let n4 := n / DI4Y in
  let n := n mod DI4Y in
  let n1 := n / 365 in
  let n := n mod 365 in
  let year := year + n100 * 100 + n4 * 4 + n1 in
  if (n1 =? 4) || (n100 =? 4) then (year - 1, 12, 31)
  else
    let leapyear := (n1 =? 3) && (negb (n4 =? 24) || (n100 =? 3)) in
    let month := Z.shiftr (n + 50) 5 in
    let preceding :=
      DAYS_BEFORE_MONTH month + (if (month >? 2) && leapyear then 1 else 0) in
    if preceding >? n then
      let month := month - 1 in
      let preceding :=
        preceding
        - (DAYS_IN_MONTH month + (if (month =? 2) && leapyear then 1 else 0)) in
      (year, month, n - preceding + 1)
    else (year, month, n - preceding + 1).

Definition weekday (ordinal : Z) : Z := (ordinal + 6) mod 7.

(** The two month tables with the leap day added, as [ord2ymd] reads them. *)
Definition month_start_flag (leap : bool) (month : Z) : Z :=
  DAYS_BEFORE_MONTH month + (if (month >? 2) && leap then 1 else 0).
Definition month_len_flag (leap : bool) (month : Z) : Z :=
  DAYS_IN_MONTH month + (if (month =? 2) && leap then 1 else 0).

(** The year and month of a datetime. *)
Definition month_of_date (d : datetime) : Z * Z :=
  let '(y, m, _) := ord2ymd (toordinal d) in (y, m).

Definition TH : Z := 3.
Definition FR : Z := 4.

(** A datetime from a calendar date and a clock reading, for examples. *)
Definition mkdatetime (year month day : Z) (t : time) (offset : Z) : datetime :=
  mkdt (combine (ymd2ord year month day) t) offset.

(** ** [dateutil.relativedelta]

    [relativedelta(months=n)] folds whole years out of [n]; adding it moves
    the month, clips the day to the length of the target month and keeps the
    clock reading and the [tzinfo]. *)

Definition relativedelta_months (months : Z) : Z * Z :=
  if Z.abs months >? 11 then
    let s := Z.sgn months in
    ((months * s / 12) * s, ((months * s) mod 12) * s)
  else (0, months).

Definition add_relativedelta (d : datetime) (months_arg : Z) : datetime :=
  let '(years, months) := relativedelta_months months_arg in
  let '(y, m, day) := ord2ymd (toordinal d) in
  let year := y + years in
  let '(year, month) :=
    if months =? 0 then (year, m)
    else
      let month := m + months in
      if month >? 12 then (year + 1, month - 12)
      else if month <? 1 then (year - 1, month + 12)
      else (year, month) in
  let day := Z.min (days_in_month year month) day in
  mkdt (ymd2ord year month day * us_per_day + time_of_day d) (utcoffset d).

(** ** [dateutil.rrule]

    [rrule] drops the microseconds of [dtstart], walks the periods from the
    one holding [dtstart], builds each occurrence from the chosen day and the
    clock reading of [dtstart] (with its [tzinfo]), stops at the first
    occurrence after [until] and yields those not before [dtstart].  The fuel
    of the two walks bounds the number of periods up to [until]. *)

Definition replace_microsecond0 (d : datetime) : datetime :=
  mkdt (wall d - wall d mod us_per_second) (utcoffset d).

(** [byweekday=[w(+1)]]: the first weekday [w] of the month. *)
Definition first_weekday_of_month (w year month : Z) : Z :=
  let first := ymd2ord year month 1 in
  first + (7 - weekday first + w) mod 7.

(** [byweekday=[w(-1)]]: the last weekday [w] of the month. *)
Definition last_weekday_of_month (w year month : Z) : Z :=
  let last := ymd2ord year month (days_in_month year month) in
  last - (weekday last - w) mod 7.

Definition next_month (year month : Z) : Z * Z :=
  if month + 1 >? 12 then (year + 1, 1) else (year, month + 1).

Fixpoint rrule_monthly_iter (fuel : nat) (pick : Z -> Z -> Z)
    (dtstart until : datetime) (year month : Z) : list datetime :=
  match fuel with
  | O => []
  | S fuel' =>
      let res :=
        mkdt (pick year month * us_per_day + time_of_day dtstart)
             (utcoffset dtstart) in
      if dt_gtb res until then []
      else
        let '(year', month') := next_month year month in
        let later := rrule_monthly_iter fuel' pick dtstart until year' month' in
        if dt_geb res dtstart then res :: later else later
  end.

(** A month has at least 28 days. *)
Definition months_fuel (dtstart until : datetime) : nat :=
  Z.to_nat ((utc until - utc dtstart) / (28 * us_per_day) + 3).

Definition rrule_monthly (pick : Z -> Z -> Z) (dtstart until : datetime)
    : list datetime :=
  let dtstart := replace_microsecond0 dtstart in
  let '(y, m, _) := ord2ymd (toordinal dtstart) in
  rrule_monthly_iter (months_fuel dtstart until) pick dtstart until y m.

Fixpoint rrule_weekly_iter (fuel : nat) (interval : Z)
    (until res : datetime) : list datetime :=
  match fuel with
  | O => []
  | S fuel' =>
      if dt_gtb res until then []
      else
        res :: rrule_weekly_iter fuel' interval until
                 (dt_add res (timedelta_weeks interval))
  end.

Definition weeks_fuel (interval : Z) (dtstart until : datetime) : nat :=
  Z.to_nat ((utc until - utc dtstart) / timedelta_weeks interval + 1).

Definition rrule_weekly (interval : Z) (dtstart until : datetime)
    : list datetime :=
  let dtstart := replace_microsecond0 dtstart in
  rrule_weekly_iter (weeks_fuel interval dtstart until) interval until dtstart.

(** ** Outcomes of a call *)

Inductive error : Type := InvalidPattern | InvalidDuration.

Inductive outcome (A : Type) : Type :=
  | Returns (a : A)
  | Raises (e : error).
Arguments Returns {A} a.
Arguments Raises {A} e.

(** ** Recurrence Generator: [generate_candidate_dates]

    The source has no [raise]: the last branch takes every other string. *)

Definition generate_candidate_dates (start_date end_date : datetime)
    (recurrence : string) : outcome (list datetime) :=
  if String.eqb recurrence "First Thursday of each month" then
    Returns (rrule_monthly (first_weekday_of_month TH) start_date end_date)
  else if String.eqb recurrence "Last Friday of each month" then
    Returns (rrule_monthly (last_weekday_of_month FR) start_date end_date)
  else if String.eqb recurrence "Every two weeks" then
    Returns (rrule_weekly 2 start_date end_date)
  else (* Weekly *)
    Returns (rrule_weekly 1 start_date end_date).

(** ** The search, over the reference zone *)

(** A zone whose offset does not change between 09:00 and 17:00 of a day;
    America/New_York changes its offset at 02:00. *)
Definition business_hours_uniform (localize : Z -> Z) : Prop :=
  forall ordinal t : Z,
    9 * us_per_hour <= t <= 17 * us_per_hour ->
    localize (ordinal * us_per_day + t)
    = localize (ordinal * us_per_day + 9 * us_per_hour).

(** Eastern Standard Time, UTC-5, the rule of the zone in winter. *)
Definition EST_offset : Z := - (5 * us_per_hour).
Definition EST_winter : Z -> Z := fun _ => EST_offset.

Definition week_offsets : list Z := [1; -1; 2; -2; 3; -3; 4; -4].

Section Scheduler.

(** [EST.fromutc]: the offset in force at a UTC instant. *)
Variable fromutc : Z -> Z.
(** [EST.localize]: the offset given to a naive wall-clock reading. *)
Variable localize : Z -> Z.

Definition astimezone (d : datetime) : datetime :=
  let off := fromutc (utc d) in
  mkdt (utc d + off) off.

Definition EST_localize (naive : Z) : datetime :=
  mkdt naive (localize naive).

(** [d.replace(hour=h)] *)
Definition replace_hour (d : datetime) (h : Z) : datetime :=
  mkdt (wall d - (time_of_day d / us_per_hour) * us_per_hour
        + h * us_per_hour)
       (utcoffset d).

Definition normalize_events_timezone (events : list Event) : list Event :=
  map (fun event =>
         mkEvent (summary event)
                 (astimezone (ev_start event))
                 (astimezone (ev_end event)))
      events.

(** *** Day Availability Search: [find_available_slot_on_day] *)

Definition day_start_of (date : datetime) : datetime :=
  EST_localize (combine (toordinal date) (mktime 9 0 0 0)).

Definition day_end_of (date : datetime) : datetime :=
  replace_hour (day_start_of date) 17.

(** The value of [current_time] when the [while] loop is entered. *)
Definition search_start (date : datetime) (preferred_time : time)
    : datetime :=
  let preferred_datetime :=
    EST_localize (combine (toordinal date) preferred_time) in
  if (9 <=? hour preferred_time) && (hour preferred_time <? 17)
  then preferred_datetime
  else day_start_of date.

(** The [while current_time < day_end] loop. *)
Fixpoint scan (fuel : nat) (current_time day_end : datetime)
    (duration : Z) (existing_events : list Event) : option Slot :=
  match fuel with
  | O => None
  | S fuel' =>
      if dt_ltb current_time day_end then
        let slot :=
          mkSlot current_time
                 (dt_add current_time (timedelta_minutes duration)) in
        if dt_gtb (end_ slot) day_end then None
        else if negb (has_conflict slot existing_events) then Some slot
        else scan fuel' (dt_add current_time (timedelta_minutes 30))
                  day_end duration existing_events
      else None
  end.

(** The number of half-hour steps from [current_time] up to [day_end]. *)
Definition scan_fuel (current_time day_end : datetime) : nat :=
  Z.to_nat ((utc day_end - utc current_time) / timedelta_minutes 30 + 1).

Definition find_available_slot_on_day (date : datetime)
    (preferred_time : time) (duration : Z) (existing_events : list Event)
    : option Slot :=
  let day_end := day_end_of date in
  let current_time := search_start date preferred_time in
  scan (scan_fuel current_time day_end) current_time day_end
       duration existing_events.

(** *** Fallback Search: [find_slot_on_nearby_dates] *)

Fixpoint nearby_loop (offsets : list Z) (base_date : datetime)
    (preferred_time : time) (duration : Z) (existing_events : list Event)
    (end_date start_date : datetime) : option Slot :=
  match offsets with
  | [] => None
  | week_offset :: rest =>
      let test_date := dt_add base_date (timedelta_weeks week_offset) in
      if dt_gtb test_date end_date || dt_ltb test_date start_date then
        nearby_loop rest base_date preferred_time duration existing_events
                    end_date start_date
      else
        match find_available_slot_on_day test_date preferred_time duration
                                         existing_events with
        | Some slot => Some slot
        | None =>
            nearby_loop rest base_date preferred_time duration
                        existing_events end_date start_date
        end
  end.

Definition find_slot_on_nearby_dates (base_date : datetime)
    (preferred_time : time) (duration : Z) (existing_events : list Event)
    (end_date start_date : datetime) : option Slot :=
  nearby_loop week_offsets base_date preferred_time duration existing_events
              end_date start_date.

(** *** Scheduling Orchestrator: [find_optimal_slots] *)

(** The [for base_date in candidate_dates] loop; [optimal_slots] is built
    in candidate order. *)
Fixpoint collect_slots (candidate_dates : list datetime)
    (preferred_time : time) (duration : Z) (existing_events : list Event)
    (end_date now : datetime) : list Slot :=
  match candidate_dates with
  | [] => []
  | base_date :: rest =>
      let optimal_slots :=
        collect_slots rest preferred_time duration existing_events
                      end_date now in
      match find_available_slot_on_day base_date preferred_time duration
                                       existing_events with
      | Some slot => slot :: optimal_slots
      | None =>
          match find_slot_on_nearby_dates base_date preferred_time duration
                                          existing_events end_date now with
          | Some nearby_slot => nearby_slot :: optimal_slots
          | None => optimal_slots
          end
      end
  end.

Definition find_optimal_slots (now : datetime) (existing_events : list Event)
    (preferred_time : time) (duration : Z) (recurrence : string)
    (months_ahead : Z) : outcome (list Slot) :=
  let existing_events := normalize_events_timezone existing_events in
  let end_date := add_relativedelta now months_ahead in
  match generate_candidate_dates now end_date recurrence with
  | Raises e => Raises e
  | Returns candidate_dates =>
      Returns (collect_slots candidate_dates preferred_time duration
                             existing_events end_date now)
  end.

End Scheduler.

(** ** The specification's vocabulary *)

(** The closed set of recurrence patterns. *)
Definition supported_patterns : list string :=
  [ "First Thursday of each month"%string; "Last Friday of each month"%string;
    "Every two weeks"%string; "Weekly"%string ].

(** A slot, widened by 15 minutes on both sides, overlaps an event under
    open-interval comparison. *)
Definition buffered_overlap (slot : Slot) (event : Event) : Prop :=
  utc (start slot) - timedelta_minutes 15 < utc (ev_end event)
  /\ utc (end_ slot) + timedelta_minutes 15 > utc (ev_start event).

(** The clock readings 09:00 and 17:00. *)
Definition business_open : Z := 9 * us_per_hour.
Definition business_close : Z := 17 * us_per_hour.

(** The [k]-th month after a month. *)
Definition nth_month (ym : Z * Z) (k : nat) : Z * Z :=
  Nat.iter k (fun p => next_month (fst p) (snd p)) ym.

(** The occurrence of a monthly rule in a month: the chosen day, at the
    clock reading and offset of [dtstart]. *)
Definition month_occurrence (pick : Z -> Z -> Z) (dtstart : datetime)
    (ym : Z * Z) : datetime :=
  mkdt (pick (fst ym) (snd ym) * us_per_day + time_of_day dtstart)
       (utcoffset dtstart).

(** A day is the first weekday [w] of a month: it has that weekday and is
    one of the first seven days of the month. *)
Definition is_first_weekday_of_month (w ordinal : Z) (ym : Z * Z) : Prop :=
  weekday ordinal = w
  /\ ymd2ord (fst ym) (snd ym) 1 <= ordinal <= ymd2ord (fst ym) (snd ym) 7.

(** One attempt of the Fallback Search, as the specification words it:
    [testDate = baseDate + offset*7 days], passed over outside
    [[startDate, endDate]], otherwise searched. *)
Definition fallback_attempt (localize : Z -> Z) (base_date : datetime)
    (preferred_time : time) (duration : Z) (existing_events : list Event)
    (end_date start_date : datetime) (offset : Z) : option Slot :=
  let test_date := dt_add base_date (offset * 7 * us_per_day) in
  if (utc start_date <=? utc test_date) && (utc test_date <=? utc end_date)
  then find_available_slot_on_day localize test_date preferred_time duration
                                  existing_events
  else None.

(** ** Example inputs *)

Definition EDT_offset : Z := - (4 * us_per_hour).

Definition t0800 : time := mktime 8 0 0 0.
Definition t0900 : time := mktime 9 0 0 0.
Definition t1000 : time := mktime 10 0 0 0.
Definition t1700 : time := mktime 17 0 0 0.

(** Monday 2026-01-05 08:00 EST, and the four Mondays after it. *)
Definition monday_jan5 : datetime := mkdatetime 2026 1 5 t0800 EST_offset.
Definition monday_jan12 : datetime := mkdatetime 2026 1 12 t0800 EST_offset.
Definition monday_jan19 : datetime := mkdatetime 2026 1 19 t0800 EST_offset.
Definition monday_jan26 : datetime := mkdatetime 2026 1 26 t0800 EST_offset.
Definition monday_feb2 : datetime := mkdatetime 2026 2 2 t0800 EST_offset.

(** A busy event over the whole business day of 2026-01-05. *)
Definition busy_jan5 : Event :=
  mkEvent "Offsite" (mkdatetime 2026 1 5 t0900 EST_offset)
          (mkdatetime 2026 1 5 t1700 EST_offset).

(** The slot from [t] on the given day of 2026, [minutes] long, in EST. *)
Definition slot_2026 (month day : Z) (t : time) (minutes : Z) : Slot :=
  mkSlot (mkdatetime 2026 month day t EST_offset)
         (dt_add (mkdatetime 2026 month day t EST_offset)
                 (timedelta_minutes minutes)).

(** Thursday 2026-05-07 10:00 EDT, the first Thursday of its month. *)
Definition thursday_may7 : datetime := mkdatetime 2026 5 7 t1000 EDT_offset.

(** ** The probes of a day *)

(** The candidate slot formed [j] half hours after the scan was entered. *)
Definition probe (current_time : datetime) (duration : Z) (j : nat) : Slot :=
  let at_j := dt_add current_time (Z.of_nat j * timedelta_minutes 30) in
  mkSlot at_j (dt_add at_j (timedelta_minutes duration)).

(** The clock reading at which the scan of a day is entered. *)
Definition search_clock (preferred_time : time) : Z :=
  if (9 <=? hour preferred_time) && (hour preferred_time <? 17)
  then time_us preferred_time
  else business_open.

(** A day is the last weekday [w] of a month: it has that weekday and is
    one of the last seven days of the month. *)
Definition is_last_weekday_of_month (w ordinal : Z) (ym : Z * Z) : Prop :=
  weekday ordinal = w
  /\ ymd2ord (fst ym) (snd ym) (days_in_month (fst ym) (snd ym)) - 6
     <= ordinal
     <= ymd2ord (fst ym) (snd ym) (days_in_month (fst ym) (snd ym)).

(** The instants of an event. *)
Definition event_instants (e : Event) : Z * Z :=
  (utc (ev_start e), utc (ev_end e)).

(** A probe is tried when it starts before [day_end] and ends by it. *)
Definition probe_fits (current_time day_end : datetime) (d : Z) (j : nat)
    : Prop :=
  utc (start (probe current_time d j)) < utc day_end
  /\ utc (end_ (probe current_time d j)) <= utc day_end.


(** A monthly rule picks a day of the month it is asked for. *)
Definition pick_within_month (pick : Z -> Z -> Z) : Prop :=
  forall y m, 1 <= m <= 12 ->
    ymd2ord y m 1 <= pick y m <= ymd2ord y m (days_in_month y m).

(** Ascending by instant. *)
Definition dt_ascending (dates : list datetime) : Prop :=
  forall i j a b,
    (i < j)%nat -> nth_error dates i = Some a -> nth_error dates j = Some b ->
    utc a < utc b.

(** ** calendar_utils.py

    The [icalendar] library reads and writes the file format: its reader
    [Calendar.from_ical] is a section variable, as the zone is.  The
    conversions of [parse_ics] run inside a [try] that passes over the event
    on any exception, so here the range errors of [datetime] are part of the
    model: they decide which events are read. *)

(** The exceptions of Python that [parse_ics] meets. *)
Inductive exception : Type :=
  | AttributeError
  | TypeError
  | OverflowError
  | ValueError.

Inductive attempt (A : Type) : Type :=
  | Done (a : A)
  | Raised (e : exception).
Arguments Done {A} a.
Arguments Raised {A} e.

Definition bind {A B : Type} (x : attempt A) (f : A -> attempt B)
    : attempt B :=
  match x with
  | Done a => f a
  | Raised e => Raised e
  end.

Notation "x <- e1 ;; e2" := (bind e1 (fun x => e2))
  (at level 61, e1 at next level, right associativity).

(** The value [.dt] of a DTSTART or DTEND property: an aware [datetime], a
    naive one (its wall-clock reading), a [date] (its ordinal), or a value of
    another type (a [time], a [timedelta], a period). *)
Inductive ical_value : Type :=
  | AwareDatetime (d : datetime)
  | NaiveDatetime (naive : Z)
  | DateValue (ordinal : Z)
  | OtherValue.

(** What [component.get('dtstart')] gives when the property is there: the
    property with its value, or, when the property occurs more than once, a
    list, which has no [.dt]. *)
Inductive ical_property : Type :=
  | Property (dt : ical_value)
  | PropertyList.

(** A component: its name, [get('dtstart')], [get('dtend')] and the text
    [str(get('summary'))] of its summary. *)
Record Component : Type := mkComponent {
  c_name : string;
  c_dtstart : option ical_property;
  c_dtend : option ical_property;
  c_summary : option string
}.

(** [pytz.UTC.localize], [d.astimezone(pytz.UTC)] *)
Definition UTC_localize (naive : Z) : datetime := mkdt naive 0.
Definition astimezone_UTC (d : datetime) : datetime := mkdt (utc d) 0.

(** [datetime.min.time()] and [datetime.max.time()], 00:00 and
    23:59:59.999999 *)
Definition min_time : time := mktime 0 0 0 0.
Definition max_time : time := mktime 23 59 59 999999.

(** [datetime.min] and [datetime.max], 0001-01-01 00:00 and
    9999-12-31 23:59:59.999999: arithmetic that leaves them raises
    [OverflowError]. *)
Definition datetime_min : Z := combine (ymd2ord 1 1 1) min_time.
Definition datetime_max : Z := combine (ymd2ord 9999 12 31) max_time.

Definition in_range (naive : Z) : bool :=
  (datetime_min <=? naive) && (naive <=? datetime_max).

Section CalendarUtils.

Variable fromutc : Z -> Z.
Variable localize : Z -> Z.
(** [Calendar.from_ical(data).walk()]: the components of the file, the
    calendar first, or the error of the reader. *)
Variable from_ical : string -> attempt (list Component).

(** [d.astimezone(EST)] computes [d - d.utcoffset()], and [EST.fromutc] adds
    the offset in force to it. *)
Definition astimezone_EST (d : datetime) : attempt datetime :=
  if in_range (utc d) && in_range (utc d + fromutc (utc d))
  then Done (astimezone fromutc d)
  else Raised OverflowError.

(** [EST.localize(naive)] looks up the zone rule a day before and a day after
    the reading. *)
Definition EST_localize_naive (naive : Z) : attempt datetime :=
  if in_range (naive - us_per_day) && in_range (naive + us_per_day)
  then Done (EST_localize localize naive)
  else Raised OverflowError.

(** [start_time.dt] *)
Definition dt_of (property : ical_property) : attempt ical_value :=
  match property with
  | Property dt => Done dt
  | PropertyList => Raised AttributeError
  end.

(** The conversion of [start] in [parse_ics]; [datetime.combine] takes a
    [date] only. *)
Definition parse_start (start_time : ical_value) : attempt datetime :=
  match start_time with
  | AwareDatetime d => astimezone_EST d
  | NaiveDatetime naive => astimezone_EST (UTC_localize naive)
  | DateValue ordinal => EST_localize_naive (combine ordinal min_time)
  | OtherValue => Raised TypeError
  end.

(** The conversion of [end] in [parse_ics]. *)
Definition parse_end (end_time : ical_value) : attempt datetime :=
  match end_time with
  | AwareDatetime d => astimezone_EST d
  | NaiveDatetime naive => astimezone_EST (UTC_localize naive)
  | DateValue ordinal => EST_localize_naive (combine ordinal max_time)
  | OtherValue => Raised TypeError
  end.

(** [str(component.get('summary', 'No Title'))] *)
Definition summary_of (component : Component) : string :=
  match c_summary component with
  | Some s => s
  | None => "No Title"%string
  end.

(** The body of the [try] for one VEVENT; [None] is the [continue] for a
    missing time. *)
Definition parse_event (component : Component) : attempt (option Event) :=
  match c_dtstart component, c_dtend component with
  | Some start_time, Some end_time =>
      start_dt <- dt_of start_time ;;
      end_dt <- dt_of end_time ;;
      start_est <- parse_start start_dt ;;
      end_est <- parse_end end_dt ;;
      Done (Some (mkEvent (summary_of component) start_est end_est))
  | _, _ => Done None
  end.

(** The loop over [calendar.walk()]; both [except] clauses go on with the
    next component. *)
Fixpoint parse_components (components : list Component) : list Event :=
  match components with
  | [] => []
  | component :: rest =>
      if String.eqb (c_name component) "VEVENT" then
        match parse_event component with
        | Done (Some event) => event :: parse_components rest
        | Done None => parse_components rest
        | Raised _ => parse_components rest
        end
      else parse_components rest
  end.

(** [parse_ics(file)], [file] being the bytes [file.read()] gives. *)
Definition parse_ics (file : string) : attempt (list Event) :=
  match from_ical file with
  | Done components => Done (parse_components components)
  | Raised _ => Raised ValueError
  end.

(** A time that [parse_ics] converts without leaving the range of
    [datetime]. *)
Definition value_converts (v : ical_value) : bool :=
  match v with
  | AwareDatetime d => in_range (utc d) && in_range (utc d + fromutc (utc d))
  | NaiveDatetime naive => in_range naive && in_range (naive + fromutc naive)
  | DateValue ordinal =>
      (ymd2ord 1 1 2 <=? ordinal) && (ordinal <=? ymd2ord 9999 12 30)
  | OtherValue => false
  end.

Definition property_converts (p : option ical_property) : bool :=
  match p with
  | Some (Property v) => value_converts v
  | _ => false
  end.

(** A component that [parse_ics] reads: an event whose DTSTART and DTEND each
    occur once and hold a time that converts. *)
Definition readable (component : Component) : bool :=
  String.eqb (c_name component) "VEVENT"
  && property_converts (c_dtstart component)
  && property_converts (c_dtend component).

End CalendarUtils.


(** [Calendar.walk] on a calendar with these subcomponents: the calendar
    itself, then its events. *)
Definition walk (subcomponents : list Component) : list Component :=
  mkComponent "VCALENDAR" None None None :: subcomponents.




(** A zone whose offsets lie within an hour of each other. *)
Definition offsets_within_an_hour (localize : Z -> Z) : Prop :=
  forall x y : Z, Z.abs (localize x - localize y) <= us_per_hour.


(** ** Runs far from the limits of [datetime] *)

(** A run dated from 1970 to 3000 with a horizon of at most a hundred years:
    no date it builds comes near year 1 or year 9999. *)
Definition ordinary_run (now : datetime) (months_ahead : Z) : Prop :=
  ymd2ord 1970 1 1 <= toordinal now <= ymd2ord 3000 1 1
  /\ Z.abs months_ahead <= 1200.

(** The longest way back, in minutes, that such a run can go from any of its
    dates without leaving year 1: about 1900 years. *)
Definition longest_way_back : Z := 1000000000.

(** * Properties *)

(** ** Unfolding the order on datetimes *)

Lemma dt_ltb_lt (a b : datetime) : dt_ltb a b = true <-> utc a < utc b.
Proof. unfold dt_ltb. apply Z.ltb_lt. Qed.

Lemma dt_ltb_ge (a b : datetime) : dt_ltb a b = false <-> utc b <= utc a.
Proof. unfold dt_ltb. apply Z.ltb_ge. Qed.

Lemma dt_gtb_gt (a b : datetime) : dt_gtb a b = true <-> utc b < utc a.
Proof. unfold dt_gtb. apply dt_ltb_lt. Qed.

Lemma dt_gtb_le (a b : datetime) : dt_gtb a b = false <-> utc a <= utc b.
Proof. unfold dt_gtb. apply dt_ltb_ge. Qed.

Lemma dt_geb_ge (a b : datetime) : dt_geb a b = true <-> utc b <= utc a.
Proof. unfold dt_geb. rewrite negb_true_iff. apply dt_ltb_ge. Qed.

Lemma dt_leb_le (a b : datetime) : dt_leb a b = true <-> utc a <= utc b.
Proof. unfold dt_leb. rewrite negb_true_iff. apply dt_ltb_ge. Qed.

Lemma utc_dt_add (d : datetime) (delta : Z) :
  utc (dt_add d delta) = utc d + delta.
Proof. unfold utc, dt_add; simpl. lia. Qed.

Lemma utc_slot_start (slot : Slot) :
  utc (slot_start slot) = utc (start slot) - timedelta_minutes 15.
Proof. unfold slot_start, buffer_time. rewrite utc_dt_add. lia. Qed.

Lemma utc_slot_end (slot : Slot) :
  utc (slot_end slot) = utc (end_ slot) + timedelta_minutes 15.
Proof. unfold slot_end, buffer_time. now rewrite utc_dt_add. Qed.

(** Brings every boolean comparison of a goal down to [Z]. *)
Ltac dt_bool :=
  repeat match goal with
    | H : _ && _ = true |- _ => apply andb_true_iff in H; destruct H
    | H : _ || _ = false |- _ => apply orb_false_iff in H; destruct H
    | H : negb _ = true |- _ => apply negb_true_iff in H
    | H : negb _ = false |- _ => apply negb_false_iff in H
    | H : dt_ltb _ _ = true |- _ => apply dt_ltb_lt in H
    | H : dt_ltb _ _ = false |- _ => apply dt_ltb_ge in H
    | H : dt_gtb _ _ = true |- _ => apply dt_gtb_gt in H
    | H : dt_gtb _ _ = false |- _ => apply dt_gtb_le in H
    end.

(** ** The Conflict Detector *)

Lemma overlaps_spec (slot : Slot) (event : Event) :
  overlaps slot event = true
  <-> utc (start slot) - timedelta_minutes 15 < utc (ev_end event)
      /\ utc (end_ slot) + timedelta_minutes 15 > utc (ev_start event).
Proof.
  unfold overlaps.
  rewrite andb_true_iff, dt_ltb_lt, dt_gtb_gt, utc_slot_start, utc_slot_end.
  lia.
Qed.

(** One step of the loop of [has_conflict]: an event is either the conflict
    or passed over, whichever of the two tests passes it over. *)
Lemma has_conflict_cons (slot : Slot) (event : Event) (rest : list Event) :
  has_conflict slot (event :: rest)
  = overlaps slot event || has_conflict slot rest.
Proof.
  simpl. fold (overlaps slot event).
  destruct (dt_ltb (ev_end event) (slot_start slot)) eqn:Hskip1;
    destruct (dt_gtb (ev_start event) (slot_end slot)) eqn:Hskip2;
    simpl; try (destruct (overlaps slot event) eqn:Hov; [| reflexivity ]);
    try reflexivity;
    exfalso; unfold overlaps in Hov; dt_bool; lia.
Qed.

Lemma has_conflict_existsb (slot : Slot) (events : list Event) :
  has_conflict slot events = existsb (overlaps slot) events.
Proof.
  induction events as [| event rest IH].
  - reflexivity.
  - rewrite has_conflict_cons, IH. reflexivity.
Qed.

(** C10. The pre-check of [has_conflict] is an optimization only: for every
    slot and every list of busy events the detector returns what the plain
    open-interval overlap test, applied to every event, returns. *)
Theorem has_conflict_refines_plain (slot : Slot) (events : list Event) :
  has_conflict slot events = has_conflict_plain slot events.
Proof.
  unfold has_conflict_plain.
  induction events as [| event rest IH].
  - reflexivity.
  - rewrite has_conflict_cons, IH. reflexivity.
Qed.

Lemma has_conflict_true_iff (slot : Slot) (events : list Event) :
  has_conflict slot events = true
  <-> exists event, In event events /\ overlaps slot event = true.
Proof.
  rewrite has_conflict_existsb.
  apply existsb_exists.
Qed.

Lemma has_conflict_false (slot : Slot) (events : list Event) (event : Event) :
  has_conflict slot events = false -> In event events ->
  overlaps slot event = false.
Proof.
  intros Hc Hin. destruct (overlaps slot event) eqn:Hov; [| reflexivity ].
  assert (has_conflict slot events = true) as Ht
    by (apply has_conflict_true_iff; eauto).
  congruence.
Qed.

Lemma has_conflict_app (slot : Slot) (l1 l2 : list Event) :
  has_conflict slot (l1 ++ l2) = has_conflict slot l1 || has_conflict slot l2.
Proof.
  rewrite !has_conflict_existsb.
  apply existsb_app.
Qed.

(** C5. [has_conflict] reports a conflict exactly when some busy event
    overlaps the slot widened by 15 minutes on both sides, under strict
    comparison.  An event that ends exactly 15 minutes before the slot starts
    is no conflict: it can be taken out of any event list without changing the
    answer.  An event that ends exactly 14 minutes before the slot starts, and
    starts before the widened end, is a conflict in any list that holds it. *)
Theorem has_conflict_buffer_boundary
    (slot : Slot) (events before after : list Event) (event : Event) :
  (has_conflict slot events = true
   <-> exists e, In e events
        /\ utc (start slot) - timedelta_minutes 15 < utc (ev_end e)
        /\ utc (end_ slot) + timedelta_minutes 15 > utc (ev_start e))
  /\ (utc (ev_end event) = utc (start slot) - timedelta_minutes 15 ->
      has_conflict slot [event] = false
      /\ has_conflict slot (before ++ event :: after)
         = has_conflict slot (before ++ after))
  /\ (utc (ev_end event) = utc (start slot) - timedelta_minutes 14 ->
      utc (ev_start event) < utc (end_ slot) + timedelta_minutes 15 ->
      has_conflict slot [event] = true
      /\ (In event events -> has_conflict slot events = true)).
Proof.
  split; [| split ].
  - rewrite has_conflict_true_iff.
    split; intros [e [Hin Hov]]; exists e; split; trivial;
      now apply overlaps_spec.
  - intros Hend.
    assert (overlaps slot event = false) as Hov.
    { destruct (overlaps slot event) eqn:Hov; [| reflexivity ].
      apply overlaps_spec in Hov. lia. }
    split.
    + rewrite has_conflict_cons, Hov. reflexivity.
    + rewrite !has_conflict_app, has_conflict_cons, Hov. reflexivity.
  - intros Hend Hstart.
    assert (overlaps slot event = true) as Hov.
    { apply overlaps_spec.
      unfold timedelta_minutes, us_per_minute, us_per_second in *. lia. }
    split.
    + rewrite has_conflict_cons, Hov. reflexivity.
    + intros Hin. apply has_conflict_true_iff. eauto.
Qed.

(** ** Arithmetic on datetimes *)

Lemma dt_add_0 (d : datetime) : dt_add d 0 = d.
Proof. destruct d as [w o]. unfold dt_add; simpl. f_equal. lia. Qed.

Lemma dt_add_add (d : datetime) (a b : Z) :
  dt_add (dt_add d a) b = dt_add d (a + b).
Proof. unfold dt_add; simpl. f_equal. lia. Qed.

Lemma utcoffset_dt_add (d : datetime) (delta : Z) :
  utcoffset (dt_add d delta) = utcoffset d.
Proof. reflexivity. Qed.

Lemma wall_dt_add (d : datetime) (delta : Z) :
  wall (dt_add d delta) = wall d + delta.
Proof. reflexivity. Qed.

Lemma half_hour_pos : 0 < timedelta_minutes 30.
Proof. reflexivity. Qed.

(** ** The scan of one day *)

(** One turn of the loop. *)
Lemma scan_S (fuel : nat) (current_time day_end : datetime) (duration : Z)
    (events : list Event) :
  scan (S fuel) current_time day_end duration events
  = if dt_ltb current_time day_end then
      let slot :=
        mkSlot current_time
               (dt_add current_time (timedelta_minutes duration)) in
      if dt_gtb (end_ slot) day_end then None
      else if negb (has_conflict slot events) then Some slot
      else scan fuel (dt_add current_time (timedelta_minutes 30))
                day_end duration events
    else None.
Proof. reflexivity. Qed.

(** What an accepted slot is: some number of half-hour steps after the point
    where the scan was entered, of the requested length, starting before and
    ending by [day_end], and free of conflicts. *)
Lemma scan_Some (fuel : nat) (current_time day_end : datetime) (duration : Z)
    (events : list Event) (s : Slot) :
  scan fuel current_time day_end duration events = Some s ->
  exists k : nat,
    start s = dt_add current_time (Z.of_nat k * timedelta_minutes 30)
    /\ end_ s = dt_add (start s) (timedelta_minutes duration)
    /\ utc (start s) < utc day_end
    /\ utc (end_ s) <= utc day_end
    /\ has_conflict s events = false.
Proof.
  revert current_time.
  induction fuel as [| fuel IH]; intros current_time Hscan.
  - discriminate.
  - rewrite scan_S in Hscan. cbv zeta in Hscan.
    destruct (dt_ltb current_time day_end) eqn:Hlt; [| discriminate ].
    destruct (dt_gtb (end_ (mkSlot current_time _)) day_end) eqn:Hend;
      [ discriminate |].
    destruct (has_conflict (mkSlot current_time _) events) eqn:Hc;
      simpl negb in Hscan; cbv iota in Hscan.
    + destruct (IH _ Hscan) as [k [Hs [He [H1 [H2 H3]]]]].
      exists (S k). repeat split; trivial.
      rewrite Hs, dt_add_add. f_equal. lia.
    + injection Hscan as <-. exists 0%nat.
      change (Z.of_nat 0 * timedelta_minutes 30) with 0.
      rewrite dt_add_0. dt_bool. repeat split; trivial.
Qed.

(** The first probe: a free slot that fits at the entry point is the answer. *)
Lemma scan_first_probe (fuel : nat) (current_time day_end : datetime)
    (duration : Z) (events : list Event) :
  let slot :=
    mkSlot current_time (dt_add current_time (timedelta_minutes duration)) in
  utc current_time < utc day_end ->
  utc (end_ slot) <= utc day_end ->
  has_conflict slot events = false ->
  scan (S fuel) current_time day_end duration events = Some slot.
Proof.
  intros slot Hlt Hend Hc. rewrite scan_S. fold slot.
  apply dt_ltb_lt in Hlt. rewrite Hlt.
  apply dt_gtb_le in Hend. cbv zeta. rewrite Hend, Hc. reflexivity.
Qed.

(** The fuel of the scan is never what stops it: once the fuel covers the
    half hours left before [day_end], more fuel changes nothing. *)
Lemma scan_fuel_irrelevant (fuel extra : nat) (current_time day_end : datetime)
    (duration : Z) (events : list Event) :
  utc day_end - utc current_time < Z.of_nat fuel * timedelta_minutes 30 ->
  scan (fuel + extra) current_time day_end duration events
  = scan fuel current_time day_end duration events.
Proof.
  revert current_time.
  induction fuel as [| fuel IH]; intros current_time Hfuel.
  - destruct extra as [| extra]; [ reflexivity |].
    change (0 + S extra)%nat with (S extra). rewrite scan_S.
    destruct (dt_ltb current_time day_end) eqn:Hlt; [| reflexivity ].
    dt_bool. simpl in Hfuel. lia.
  - change (S fuel + extra)%nat with (S (fuel + extra)). rewrite !scan_S.
    cbv zeta.
    destruct (dt_ltb current_time day_end); [| reflexivity ].
    destruct (dt_gtb _ day_end); [ reflexivity |].
    destruct (negb _); [ reflexivity |].
    apply IH. rewrite utc_dt_add.
    pose proof half_hour_pos. lia.
Qed.

Lemma scan_fuel_covers (current_time day_end : datetime) :
  utc day_end - utc current_time
  < Z.of_nat (scan_fuel current_time day_end) * timedelta_minutes 30.
Proof.
  unfold scan_fuel.
  pose proof half_hour_pos as Hpos.
  set (x := utc day_end - utc current_time).
  set (m := timedelta_minutes 30) in *.
  destruct (Z.le_gt_cases 0 (x / m + 1)) as [Hq | Hq].
  - rewrite Z2Nat.id by exact Hq.
    pose proof (Z.mul_succ_div_gt x m Hpos). nia.
  - assert (x < 0).
    { destruct (Z.le_gt_cases 0 x) as [Hx | Hx]; [| exact Hx ].
      pose proof (Z.div_pos x m Hx Hpos). lia. }
    nia.
Qed.

(** The Day Availability Search returns the result of the unbounded loop. *)
Lemma find_available_slot_on_day_total (localize : Z -> Z) (date : datetime)
    (preferred_time : time) (duration : Z) (events : list Event) (extra : nat) :
  find_available_slot_on_day localize date preferred_time duration events
  = scan (scan_fuel (search_start localize date preferred_time)
                    (day_end_of localize date) + extra)
         (search_start localize date preferred_time)
         (day_end_of localize date) duration events.
Proof.
  unfold find_available_slot_on_day. symmetry.
  apply scan_fuel_irrelevant, scan_fuel_covers.
Qed.

(** ** The Fallback Search *)

Lemma fallback_attempt_eq (localize : Z -> Z) (base_date : datetime)
    (pt : time) (d : Z) (events : list Event) (end_date start_date : datetime)
    (w : Z) :
  fallback_attempt localize base_date pt d events end_date start_date w
  = let test_date := dt_add base_date (timedelta_weeks w) in
    if dt_gtb test_date end_date || dt_ltb test_date start_date then None
    else find_available_slot_on_day localize test_date pt d events.
Proof.
  unfold fallback_attempt, timedelta_weeks. cbv zeta.
  set (test_date := dt_add base_date (w * 7 * us_per_day)).
  unfold dt_gtb, dt_ltb.
  destruct (utc start_date <=? utc test_date) eqn:H1;
    destruct (utc test_date <=? utc end_date) eqn:H2;
    destruct (utc end_date <? utc test_date) eqn:H3;
    destruct (utc test_date <? utc start_date) eqn:H4;
    try reflexivity; exfalso;
    repeat match goal with
      | H : (_ <=? _) = true |- _ => apply Z.leb_le in H
      | H : (_ <=? _) = false |- _ => apply Z.leb_gt in H
      | H : (_ <? _) = true |- _ => apply Z.ltb_lt in H
      | H : (_ <? _) = false |- _ => apply Z.ltb_ge in H
      end; lia.
Qed.

(** One turn of the loop over the week offsets. *)
Lemma nearby_loop_cons (localize : Z -> Z) (w : Z) (rest : list Z)
    (base_date : datetime) (pt : time) (d : Z) (events : list Event)
    (end_date start_date : datetime) :
  nearby_loop localize (w :: rest) base_date pt d events end_date start_date
  = match fallback_attempt localize base_date pt d events end_date start_date w
    with
    | Some slot => Some slot
    | None =>
        nearby_loop localize rest base_date pt d events end_date start_date
    end.
Proof.
  rewrite fallback_attempt_eq. cbv zeta. simpl nearby_loop.
  destruct (dt_gtb _ end_date || dt_ltb _ start_date); reflexivity.
Qed.

(** The loop returns the first attempt that finds a slot. *)
Lemma nearby_loop_Some (localize : Z -> Z) (offsets : list Z)
    (base_date : datetime) (pt : time) (d : Z) (events : list Event)
    (end_date start_date : datetime) (s : Slot) :
  nearby_loop localize offsets base_date pt d events end_date start_date
  = Some s
  <-> exists (i : nat) (w : Z),
        nth_error offsets i = Some w
        /\ fallback_attempt localize base_date pt d events end_date start_date w
           = Some s
        /\ forall (j : nat) (w' : Z),
             (j < i)%nat -> nth_error offsets j = Some w' ->
             fallback_attempt localize base_date pt d events end_date
                              start_date w' = None.
Proof.
  induction offsets as [| w rest IH].
  - split; [ discriminate |].
    intros [i [w [Hnth _]]]. destruct i; discriminate.
  - rewrite nearby_loop_cons.
    destruct (fallback_attempt localize base_date pt d events end_date
                               start_date w) as [slot |] eqn:Hw.
    + split.
      * intros Heq. exists 0%nat, w. repeat split; trivial.
        -- congruence.
        -- intros j w' Hj. lia.
      * intros [i [w0 [Hnth [Hatt Hprev]]]].
        destruct i as [| i].
        -- simpl in Hnth. congruence.
        -- specialize (Hprev 0%nat w (Nat.lt_0_succ i) eq_refl). congruence.
    + rewrite IH. split.
      * intros [i [w0 [Hnth [Hatt Hprev]]]].
        exists (S i), w0. repeat split; trivial.
        intros [| j] w' Hj Hnj; simpl in Hnj.
        -- congruence.
        -- apply (Hprev j); [ lia | exact Hnj ].
      * intros [i [w0 [Hnth [Hatt Hprev]]]].
        destruct i as [| i]; simpl in Hnth.
        -- congruence.
        -- exists i, w0. repeat split; trivial.
           intros j w' Hj Hnj. apply (Hprev (S j)); [ lia | exact Hnj ].
Qed.

Lemma nearby_loop_None (localize : Z -> Z) (offsets : list Z)
    (base_date : datetime) (pt : time) (d : Z) (events : list Event)
    (end_date start_date : datetime) :
  nearby_loop localize offsets base_date pt d events end_date start_date = None
  <-> forall w, In w offsets ->
        fallback_attempt localize base_date pt d events end_date start_date w
        = None.
Proof.
  induction offsets as [| w rest IH].
  - split; [ intros _ w [] | reflexivity ].
  - rewrite nearby_loop_cons.
    destruct (fallback_attempt localize base_date pt d events end_date
                               start_date w) as [slot |] eqn:Hw.
    + split; [ discriminate |].
      intros Hall. rewrite (Hall w) in Hw by (left; reflexivity).
      discriminate.
    + rewrite IH. split.
      * intros Hall w' [<- | Hin]; [ exact Hw | now apply Hall ].
      * intros Hall w' Hin. apply Hall. now right.
Qed.

(** A slot of the Fallback Search is a slot of the Day Availability Search
    on some date. *)
Lemma find_slot_on_nearby_dates_day (localize : Z -> Z) (base_date : datetime)
    (pt : time) (d : Z) (events : list Event) (end_date start_date : datetime)
    (s : Slot) :
  find_slot_on_nearby_dates localize base_date pt d events end_date start_date
  = Some s ->
  exists test_date,
    find_available_slot_on_day localize test_date pt d events = Some s.
Proof.
  unfold find_slot_on_nearby_dates. intros H.
  apply nearby_loop_Some in H. destruct H as [i [w [_ [Hatt _]]]].
  unfold fallback_attempt in Hatt. cbv zeta in Hatt.
  destruct (_ && _); [| discriminate ]. eauto.
Qed.

(** ** The Orchestrator's loop *)

Lemma collect_slots_cons (localize : Z -> Z) (base_date : datetime)
    (rest : list datetime) (pt : time) (d : Z) (events : list Event)
    (end_date now : datetime) :
  collect_slots localize (base_date :: rest) pt d events end_date now
  = match find_available_slot_on_day localize base_date pt d events with
    | Some slot =>
        slot :: collect_slots localize rest pt d events end_date now
    | None =>
        match find_slot_on_nearby_dates localize base_date pt d events
                                        end_date now with
        | Some nearby_slot =>
            nearby_slot :: collect_slots localize rest pt d events end_date now
        | None => collect_slots localize rest pt d events end_date now
        end
    end.
Proof. reflexivity. Qed.

(** Every collected slot was accepted by the Day Availability Search, on a
    candidate date or on a date of the Fallback Search. *)
Lemma collect_slots_day (localize : Z -> Z) (candidates : list datetime)
    (pt : time) (d : Z) (events : list Event) (end_date now : datetime)
    (s : Slot) :
  In s (collect_slots localize candidates pt d events end_date now) ->
  exists date, find_available_slot_on_day localize date pt d events = Some s.
Proof.
  induction candidates as [| base_date rest IH]; [ intros [] |].
  rewrite collect_slots_cons.
  destruct (find_available_slot_on_day localize base_date pt d events)
    as [slot |] eqn:Hday.
  - intros [<- | Hin]; eauto.
  - destruct (find_slot_on_nearby_dates localize base_date pt d events
                                        end_date now) as [slot |] eqn:Hnear.
    + intros [<- | Hin]; [| eauto ].
      eapply find_slot_on_nearby_dates_day; eauto.
    + exact IH.
Qed.

Lemma find_optimal_slots_day (fromutc localize : Z -> Z) (now : datetime)
    (events : list Event) (pt : time) (d : Z) (recurrence : string)
    (months_ahead : Z) (slots : list Slot) (s : Slot) :
  find_optimal_slots fromutc localize now events pt d recurrence months_ahead
  = Returns slots ->
  In s slots ->
  exists date,
    find_available_slot_on_day localize date pt d
      (normalize_events_timezone fromutc events) = Some s.
Proof.
  unfold find_optimal_slots.
  destruct (generate_candidate_dates _ _ _) as [candidates | e];
    [| discriminate ].
  intros Heq Hin. injection Heq as <-.
  eapply collect_slots_day; eauto.
Qed.

(** ** The business day *)

(** Unfolds the time units down to numerals, for [lia]. *)
Ltac units :=
  unfold timedelta_minutes, timedelta_weeks, us_per_day, us_per_hour,
    us_per_minute, us_per_second in *.

Lemma time_us_hour (t : time) :
  time_valid t ->
  hour t * us_per_hour <= time_us t < (hour t + 1) * us_per_hour.
Proof.
  unfold time_valid, time_us, us_per_hour, us_per_minute, us_per_second.
  lia.
Qed.

Lemma time_us_range (t : time) :
  time_valid t -> 0 <= time_us t < us_per_day.
Proof.
  unfold time_valid, time_us, us_per_day, us_per_hour, us_per_minute,
    us_per_second.
  lia.
Qed.

Lemma wall_day_start_of (localize : Z -> Z) (date : datetime) :
  wall (day_start_of localize date)
  = toordinal date * us_per_day + business_open.
Proof. reflexivity. Qed.

Lemma time_of_day_combine (ordinal t : Z) :
  0 <= t < us_per_day -> (ordinal * us_per_day + t) mod us_per_day = t.
Proof.
  intros Ht. rewrite Z.add_comm, Z.mod_add by discriminate.
  now apply Z.mod_small.
Qed.

Lemma toordinal_combine (ordinal t off : Z) :
  0 <= t < us_per_day ->
  toordinal (mkdt (ordinal * us_per_day + t) off) = ordinal.
Proof.
  intros Ht. unfold toordinal; simpl.
  rewrite Z.add_comm, Z.div_add by discriminate.
  rewrite Z.div_small by exact Ht. reflexivity.
Qed.

Lemma wall_day_end_of (localize : Z -> Z) (date : datetime) :
  wall (day_end_of localize date)
  = toordinal date * us_per_day + business_close.
Proof.
  unfold day_end_of, replace_hour, time_of_day.
  rewrite wall_day_start_of.
  rewrite time_of_day_combine by (vm_compute; intuition discriminate).
  change (business_open / us_per_hour) with 9.
  unfold business_open, business_close, day_start_of, EST_localize, combine.
  simpl wall. change (time_us (mktime 9 0 0 0)) with (9 * us_per_hour).
  units. lia.
Qed.

Lemma utcoffset_day_end_of (localize : Z -> Z) (date : datetime) :
  utcoffset (day_end_of localize date)
  = localize (toordinal date * us_per_day + business_open).
Proof. reflexivity. Qed.

(** Where the scan is entered, by the hour of the preferred time. *)
Lemma search_start_cases (localize : Z -> Z) (date : datetime) (pt : time) :
  (9 <= hour pt < 17
   /\ search_start localize date pt
      = EST_localize localize (combine (toordinal date) pt))
  \/ ((hour pt < 9 \/ 17 <= hour pt)
      /\ search_start localize date pt = day_start_of localize date).
Proof.
  unfold search_start.
  destruct (9 <=? hour pt) eqn:H9; destruct (hour pt <? 17) eqn:H17; simpl;
    repeat match goal with
      | H : (_ <=? _) = true |- _ => apply Z.leb_le in H
      | H : (_ <=? _) = false |- _ => apply Z.leb_gt in H
      | H : (_ <? _) = true |- _ => apply Z.ltb_lt in H
      | H : (_ <? _) = false |- _ => apply Z.ltb_ge in H
      end;
    [ left | right | right | right ]; split; trivial; lia.
Qed.

(** The entry point lies on the candidate date, at a clock reading within
    business hours. *)
Lemma search_start_wall (localize : Z -> Z) (date : datetime) (pt : time) :
  time_valid pt ->
  exists t,
    business_open <= t < business_close
    /\ wall (search_start localize date pt) = toordinal date * us_per_day + t
    /\ utcoffset (search_start localize date pt)
       = localize (toordinal date * us_per_day + t).
Proof.
  intros Hv.
  destruct (search_start_cases localize date pt) as [[Hh ->] | [Hh ->]].
  - exists (time_us pt). pose proof (time_us_hour pt Hv).
    unfold business_open, business_close.
    repeat split; try reflexivity; nia.
  - exists business_open.
    repeat split; try reflexivity; vm_compute; discriminate.
Qed.

(** C4. A slot accepted by the Day Availability Search or by the Fallback
    Search, for a positive duration, lasts exactly [durationMinutes], starts
    at or after 09:00 and ends at or before 17:00 on the wall clock of the
    reference zone. *)
Theorem accepted_slot_within_business_hours
    (localize : Z -> Z) (date : datetime) (pt : time) (d : Z)
    (events : list Event) (end_date start_date : datetime) (s : Slot) :
  business_hours_uniform localize ->
  time_valid pt ->
  0 < d ->
  find_available_slot_on_day localize date pt d events = Some s
  \/ find_slot_on_nearby_dates localize date pt d events end_date start_date
     = Some s ->
  wall (end_ s) - wall (start s) = timedelta_minutes d
  /\ utc (end_ s) - utc (start s) = timedelta_minutes d
  /\ business_open <= time_of_day (start s)
  /\ time_of_day (end_ s) <= business_close.
Proof.
  intros Hzone Hv Hd Hacc.
  assert (exists day, find_available_slot_on_day localize day pt d events
                      = Some s) as [day Hday].
  { destruct Hacc as [H | H]; [ eauto |].
    eapply find_slot_on_nearby_dates_day; eauto. }
  clear Hacc. unfold find_available_slot_on_day in Hday.
  apply scan_Some in Hday.
  destruct Hday as [k [Hs [He [Hlt [Hle _]]]]].
  destruct (search_start_wall localize day pt Hv) as [t [Ht [Hw Ho]]].
  assert (utcoffset (start s) = utcoffset (day_end_of localize day)) as Hoff.
  { rewrite Hs, utcoffset_dt_add, Ho, utcoffset_day_end_of.
    apply Hzone. unfold business_open, business_close in Ht. lia. }
  assert (wall (start s)
          = toordinal day * us_per_day + t
            + Z.of_nat k * timedelta_minutes 30) as Hws.
  { rewrite Hs, wall_dt_add, Hw. reflexivity. }
  assert (wall (end_ s) = wall (start s) + timedelta_minutes d) as Hwe.
  { rewrite He. apply wall_dt_add. }
  assert (utcoffset (end_ s) = utcoffset (start s)) as Hoe.
  { rewrite He. apply utcoffset_dt_add. }
  pose proof (wall_day_end_of localize day) as Hwd.
  unfold utc in Hlt, Hle. rewrite Hoe, Hoff in Hle. rewrite Hoff in Hlt.
  pose proof half_hour_pos as H30.
  assert (0 < timedelta_minutes d) as Hdpos
    by (unfold timedelta_minutes, us_per_minute, us_per_second; lia).
  assert (0 <= Z.of_nat k * timedelta_minutes 30) as Hk by nia.
  set (ws := wall (start s)) in *. set (we := wall (end_ s)) in *.
  set (o := toordinal day) in *.
  repeat split.
  - lia.
  - unfold utc. fold ws we. lia.
  - unfold time_of_day. fold ws.
    replace ws with (o * us_per_day + (ws - o * us_per_day)) by lia.
    rewrite time_of_day_combine; unfold business_open, business_close in *;
      unfold us_per_day in *; lia.
  - unfold time_of_day. fold we.
    replace we with (o * us_per_day + (we - o * us_per_day)) by lia.
    rewrite time_of_day_combine; unfold business_open, business_close in *;
      unfold us_per_day in *; lia.
Qed.

(** ** Accepted slots and busy events *)

Lemma find_available_slot_on_day_free (localize : Z -> Z) (date : datetime)
    (pt : time) (d : Z) (events : list Event) (s : Slot) :
  find_available_slot_on_day localize date pt d events = Some s ->
  has_conflict s events = false.
Proof.
  unfold find_available_slot_on_day. intros H.
  apply scan_Some in H. destruct H as [k [_ [_ [_ [_ Hc]]]]]. exact Hc.
Qed.

(** C1. No slot returned by [find_optimal_slots], widened by 15 minutes at
    its start and at its end, overlaps a busy event of the normalized input
    under open-interval comparison; the same holds of a slot accepted by the
    Day Availability Search and of a slot produced by the Fallback Search,
    against the events they were given. *)
Theorem accepted_slots_clear_of_busy_events
    (fromutc localize : Z -> Z) (date : datetime) (pt : time) (d : Z)
    (events : list Event) (end_date start_date : datetime)
    (s : Slot) (e : Event) :
  find_available_slot_on_day localize date pt d events = Some s
  \/ find_slot_on_nearby_dates localize date pt d events end_date start_date
     = Some s
  \/ (exists now raw recurrence months_ahead slots,
        events = normalize_events_timezone fromutc raw
        /\ find_optimal_slots fromutc localize now raw pt d recurrence
                              months_ahead = Returns slots
        /\ In s slots) ->
  In e events ->
  ~ buffered_overlap s e.
Proof.
  intros Hacc Hin.
  assert (exists day, find_available_slot_on_day localize day pt d events
                      = Some s) as [day Hday].
  { destruct Hacc as [H | [H | H]].
    - eauto.
    - eapply find_slot_on_nearby_dates_day; eauto.
    - destruct H as [now [raw [rec [months [slots [-> [Hret Hs]]]]]]].
      eapply find_optimal_slots_day; eauto. }
  apply find_available_slot_on_day_free in Hday.
  pose proof (has_conflict_false s events e Hday Hin) as Hov.
  unfold buffered_overlap. intros Hb.
  apply overlaps_spec in Hb. congruence.
Qed.

(** C6. The Fallback Search tries the week offsets +1, -1, +2, -2, +3, -3,
    +4, -4 in that order; an attempt at [baseDate + offset*7 days] is passed
    over when that date lies outside [[startDate, endDate]] and is a Day
    Availability Search otherwise; the result is the slot of the first
    attempt that finds one, and no slot when none of the eight does.  In the
    Orchestrator the Fallback Search runs when the canonical date has no slot,
    and a candidate with no slot from either adds nothing to the output. *)
Theorem fallback_tries_week_offsets_in_order
    (localize : Z -> Z) (base_date : datetime) (rest : list datetime)
    (pt : time) (d : Z) (events : list Event) (end_date start_date : datetime) :
  let attempt :=
    fallback_attempt localize base_date pt d events end_date start_date in
  let fallback :=
    find_slot_on_nearby_dates localize base_date pt d events end_date
                              start_date in
  let later := collect_slots localize rest pt d events end_date start_date in
  week_offsets = [1; -1; 2; -2; 3; -3; 4; -4]
  /\ (forall s,
        fallback = Some s
        <-> exists (i : nat) (w : Z),
              nth_error [1; -1; 2; -2; 3; -3; 4; -4] i = Some w
              /\ attempt w = Some s
              /\ forall (j : nat) (w' : Z),
                   (j < i)%nat ->
                   nth_error [1; -1; 2; -2; 3; -3; 4; -4] j = Some w' ->
                   attempt w' = None)
  /\ (fallback = None
      <-> forall w, In w [1; -1; 2; -2; 3; -3; 4; -4] -> attempt w = None)
  /\ (find_available_slot_on_day localize base_date pt d events = None ->
      collect_slots localize (base_date :: rest) pt d events end_date
                    start_date
      = match fallback with
        | Some s => s :: later
        | None => later
        end)
  /\ (forall s,
        find_available_slot_on_day localize base_date pt d events = Some s ->
        collect_slots localize (base_date :: rest) pt d events end_date
                      start_date
        = s :: later).
Proof.
  cbv zeta. repeat split.
  - apply nearby_loop_Some.
  - apply nearby_loop_Some.
  - apply nearby_loop_None.
  - apply nearby_loop_None.
  - intros Hday. rewrite collect_slots_cons, Hday. reflexivity.
  - intros s Hday. rewrite collect_slots_cons, Hday. reflexivity.
Qed.

(** C9. For a preferred time within [09:00, 17:00) the scan of the Day
    Availability Search is entered at the candidate date with the preferred
    clock reading; for one before 09:00 or at or after 17:00 it is entered at
    09:00 of the candidate date, as for 08:00.  The search is the scan from
    that point: a free slot that fits there is the answer, and every answer
    starts a whole number of half hours after it. *)
Theorem search_starts_at_preferred_time_in_business_hours
    (localize : Z -> Z) (date : datetime) (pt : time) (d : Z)
    (events : list Event) :
  time_valid pt ->
  let at_clock t := EST_localize localize (combine (toordinal date) t) in
  (business_open <= time_us pt < business_close ->
   search_start localize date pt = at_clock pt)
  /\ (time_us pt < business_open \/ business_close <= time_us pt ->
      search_start localize date pt = at_clock (mktime 9 0 0 0))
  /\ search_start localize date (mktime 8 0 0 0) = at_clock (mktime 9 0 0 0)
  /\ (let first :=
        mkSlot (search_start localize date pt)
               (dt_add (search_start localize date pt) (timedelta_minutes d)) in
      utc (search_start localize date pt) < utc (day_end_of localize date) ->
      utc (end_ first) <= utc (day_end_of localize date) ->
      has_conflict first events = false ->
      find_available_slot_on_day localize date pt d events = Some first)
  /\ (forall s,
        find_available_slot_on_day localize date pt d events = Some s ->
        exists k : nat,
          start s
          = dt_add (search_start localize date pt)
                   (Z.of_nat k * timedelta_minutes 30)).
Proof.
  intros Hv at_clock.
  pose proof (time_us_hour pt Hv) as Hh.
  unfold business_open, business_close.
  split; [| split; [| split; [| split ]]].
  - intros Hin.
    destruct (search_start_cases localize date pt) as [[_ ->] | [Hout _]];
      [ reflexivity | nia ].
  - intros Hout.
    destruct (search_start_cases localize date pt) as [[Hin _] | [_ ->]];
      [ nia | reflexivity ].
  - reflexivity.
  - intros Hlt Hend Hc.
    rewrite (find_available_slot_on_day_total localize date pt d events 1).
    rewrite Nat.add_1_r. now apply scan_first_probe.
  - intros s Hs. unfold find_available_slot_on_day in Hs.
    apply scan_Some in Hs. destruct Hs as [k [Hk _]]. eauto.
Qed.

(** ** Patterns and durations the specification rules out *)

(** C2, as stated, fails: "Daily" is outside the supported set, and the
    generator returns the weekly dates from Monday 2026-01-05 for it. *)
Lemma unsupported_pattern_returns_dates :
  ~ In "Daily"%string supported_patterns
  /\ generate_candidate_dates monday_jan5 (add_relativedelta monday_jan5 1)
                              "Daily"
     = Returns [monday_jan5; monday_jan12; monday_jan19; monday_jan26;
                monday_feb2].
Proof.
  split.
  - simpl. intuition discriminate.
  - vm_compute. reflexivity.
Qed.

(** C2, amended. For a pattern outside the supported set the generator raises
    nothing: it takes the last branch and returns the weekly dates, as it does
    for "Weekly". *)
Theorem unsupported_pattern_is_weekly
    (start_date end_date : datetime) (recurrence : string) :
  ~ In recurrence supported_patterns ->
  generate_candidate_dates start_date end_date recurrence
  = Returns (rrule_weekly 1 start_date end_date)
  /\ generate_candidate_dates start_date end_date recurrence
     = generate_candidate_dates start_date end_date "Weekly".
Proof.
  intros Hout. unfold supported_patterns in Hout. simpl in Hout.
  unfold generate_candidate_dates.
  destruct (String.eqb_spec recurrence "First Thursday of each month")
    as [-> | _]; [ exfalso; auto |].
  destruct (String.eqb_spec recurrence "Last Friday of each month")
    as [-> | _]; [ exfalso; auto |].
  destruct (String.eqb_spec recurrence "Every two weeks")
    as [-> | _]; [ exfalso; auto 6 |].
  split; reflexivity.
Qed.

Lemma unsupported_pattern_is_weekly_witness :
  generate_candidate_dates monday_jan5 monday_feb2 "Daily"
  = Returns (rrule_weekly 1 monday_jan5 monday_feb2)
  /\ generate_candidate_dates monday_jan5 monday_feb2 "Daily"
     = generate_candidate_dates monday_jan5 monday_feb2 "Weekly".
Proof.
  apply (unsupported_pattern_is_weekly monday_jan5 monday_feb2 "Daily").
  simpl. intuition discriminate.
Defined.

(** C3, as stated, fails: for a duration of 0 minutes and an empty calendar
    the core returns one empty slot at 09:00 for each weekly date. *)
Lemma zero_duration_returns_slots :
  0 <= 0
  /\ find_optimal_slots EST_winter EST_winter monday_jan5 [] t0900 0
                        "Weekly" 1
     = Returns [slot_2026 1 5 t0900 0; slot_2026 1 12 t0900 0;
                slot_2026 1 19 t0900 0; slot_2026 1 26 t0900 0;
                slot_2026 2 2 t0900 0].
Proof.
  split; [ lia |]. vm_compute. reflexivity.
Qed.

(** [find_optimal_slots] raises only what [generate_candidate_dates] raises,
    which is nothing. *)
Lemma find_optimal_slots_returns (fromutc localize : Z -> Z) (now : datetime)
    (events : list Event) (pt : time) (d : Z) (recurrence : string)
    (months_ahead : Z) :
  exists slots,
    find_optimal_slots fromutc localize now events pt d recurrence months_ahead
    = Returns slots.
Proof.
  unfold find_optimal_slots, generate_candidate_dates.
  repeat match goal with
    | |- context [if ?b then _ else _] => destruct b
    end; eauto.
Qed.

(** C3, amended. The core does not check the duration: for a duration of 0
    or less it raises nothing and returns a sequence of slots, each with
    [end - start] equal to the duration, so ending no later than it starts.
    This holds down to a duration of minus 1,000,000,000 minutes, for a run
    far from the limits of [datetime]; far below that, the end of a slot
    would fall before year 1, where Python raises [OverflowError]. *)
Theorem nonpositive_duration_returns_slots
    (fromutc localize : Z -> Z) (now : datetime) (events : list Event)
    (pt : time) (d : Z) (recurrence : string) (months_ahead : Z) :
  ordinary_run now months_ahead ->
  - longest_way_back <= d <= 0 ->
  exists slots,
    find_optimal_slots fromutc localize now events pt d recurrence months_ahead
    = Returns slots
    /\ forall s, In s slots ->
         utc (end_ s) - utc (start s) = timedelta_minutes d
         /\ utc (end_ s) <= utc (start s).
Proof.
  intros _ [_ Hd].
  destruct (find_optimal_slots_returns fromutc localize now events pt d
              recurrence months_ahead) as [slots Hret].
  exists slots. split; [ exact Hret |].
  intros s Hin.
  destruct (find_optimal_slots_day _ _ _ _ _ _ _ _ _ _ Hret Hin)
    as [date Hday].
  unfold find_available_slot_on_day in Hday. apply scan_Some in Hday.
  destruct Hday as [k [_ [He _]]].
  rewrite He, utc_dt_add. units. lia.
Qed.

Lemma nonpositive_duration_returns_slots_witness :
  exists slots,
    find_optimal_slots EST_winter EST_winter monday_jan5 [busy_jan5] t0900
                       (-30) "Weekly" 1
    = Returns slots
    /\ forall s, In s slots ->
         utc (end_ s) - utc (start s) = timedelta_minutes (-30)
         /\ utc (end_ s) <= utc (start s).
Proof.
  apply (nonpositive_duration_returns_slots EST_winter EST_winter monday_jan5
           [busy_jan5] t0900 (-30) "Weekly" 1).
  - vm_compute. intuition discriminate.
  - vm_compute. intuition discriminate.
Defined.

(** ** Repeated slots *)

(** C8. The output can hold the same slot twice.  With the business day of
    Monday 2026-01-05 busy and a weekly 60-minute meeting at 09:00, the first
    candidate has no slot on its day and gets 09:00-10:00 of 2026-01-12 from
    the Fallback Search; the second candidate, 2026-01-12, gets the same slot
    from the Day Availability Search, which looks at busy events only. *)
Theorem output_repeats_a_fallback_slot :
  let events := normalize_events_timezone EST_winter [busy_jan5] in
  let end_date := add_relativedelta monday_jan5 1 in
  let s := slot_2026 1 12 t0900 60 in
  exists slots,
    find_optimal_slots EST_winter EST_winter monday_jan5 [busy_jan5] t0900 60
                       "Weekly" 1
    = Returns slots
    /\ nth_error slots 0 = Some s
    /\ nth_error slots 1 = Some s
    /\ find_available_slot_on_day EST_winter monday_jan5 t0900 60 events = None
    /\ find_slot_on_nearby_dates EST_winter monday_jan5 t0900 60 events
                                 end_date monday_jan5 = Some s
    /\ find_available_slot_on_day EST_winter monday_jan12 t0900 60 events
       = Some s.
Proof.
  cbv zeta. eexists. split; [ vm_compute; reflexivity |].
  repeat split; vm_compute; reflexivity.
Qed.

(** ** Worked instances *)

(** A morning meeting on Monday 2026-01-05, 09:00-10:00 EST. *)
Lemma accepted_slots_clear_of_busy_events_witness :
  ~ buffered_overlap
      (slot_2026 1 5 (mktime 10 30 0 0) 60)
      (mkEvent "Standup" (mkdatetime 2026 1 5 t0900 EST_offset)
               (mkdatetime 2026 1 5 t1000 EST_offset)).
Proof.
  apply (accepted_slots_clear_of_busy_events EST_winter EST_winter
           monday_jan5 t0900 60
           [mkEvent "Standup" (mkdatetime 2026 1 5 t0900 EST_offset)
                    (mkdatetime 2026 1 5 t1000 EST_offset)]
           monday_feb2 monday_jan5).
  - left. vm_compute. reflexivity.
  - left. reflexivity.
Defined.

Lemma accepted_slot_within_business_hours_witness :
  let s := slot_2026 1 5 (mktime 10 30 0 0) 60 in
  wall (end_ s) - wall (start s) = timedelta_minutes 60
  /\ utc (end_ s) - utc (start s) = timedelta_minutes 60
  /\ business_open <= time_of_day (start s)
  /\ time_of_day (end_ s) <= business_close.
Proof.
  apply (accepted_slot_within_business_hours EST_winter
           monday_jan5 t0900 60
           [mkEvent "Standup" (mkdatetime 2026 1 5 t0900 EST_offset)
                    (mkdatetime 2026 1 5 t1000 EST_offset)]
           monday_feb2 monday_jan5).
  - intros ordinal t Ht. reflexivity.
  - vm_compute. intuition discriminate.
  - lia.
  - left. vm_compute. reflexivity.
Defined.

Lemma search_starts_at_preferred_time_in_business_hours_witness :
  search_start EST_winter monday_jan5 (mktime 14 30 0 0)
  = mkdatetime 2026 1 5 (mktime 14 30 0 0) EST_offset.
Proof.
  apply (proj1 (search_starts_at_preferred_time_in_business_hours EST_winter
                  monday_jan5 (mktime 14 30 0 0) 60 []
                  ltac:(vm_compute; intuition discriminate))).
  vm_compute. intuition discriminate.
Defined.

(** Before a 09:00 slot on 2026-01-12: an event ending at 08:45 is passed,
    one ending at 08:46 is a conflict. *)
Lemma has_conflict_buffer_boundary_witness :
  has_conflict (slot_2026 1 12 t0900 60)
    [mkEvent "Call" (mkdatetime 2026 1 12 t0800 EST_offset)
             (mkdatetime 2026 1 12 (mktime 8 45 0 0) EST_offset)] = false
  /\ has_conflict (slot_2026 1 12 t0900 60)
       [mkEvent "Call" (mkdatetime 2026 1 12 t0800 EST_offset)
                (mkdatetime 2026 1 12 (mktime 8 46 0 0) EST_offset)] = true.
Proof.
  split.
  - apply (proj1 (proj2 (has_conflict_buffer_boundary
                           (slot_2026 1 12 t0900 60) [] [] []
                           (mkEvent "Call"
                              (mkdatetime 2026 1 12 t0800 EST_offset)
                              (mkdatetime 2026 1 12 (mktime 8 45 0 0)
                                          EST_offset))))).
    reflexivity.
  - apply (proj2 (proj2 (has_conflict_buffer_boundary
                           (slot_2026 1 12 t0900 60) [] [] []
                           (mkEvent "Call"
                              (mkdatetime 2026 1 12 t0800 EST_offset)
                              (mkdatetime 2026 1 12 (mktime 8 46 0 0)
                                          EST_offset))))).
    + reflexivity.
    + reflexivity.
Defined.

(** ** The calendar *)

Ltac zdiv := Z.to_euclidean_division_equations; lia.

(** The month and day that [ord2ymd] reads off a day of the year. *)
Lemma month_of_yearday (leap : bool) (n : Z) :
  0 <= n < 365 ->
  let month := Z.shiftr (n + 50) 5 in
  let preceding := month_start_flag leap month in
  ((preceding >? n) = true ->
   1 <= month - 1 <= 12
   /\ preceding - month_len_flag leap (month - 1)
      = month_start_flag leap (month - 1)
   /\ 1 <= n - (preceding - month_len_flag leap (month - 1)) + 1
        <= month_len_flag leap (month - 1))
  /\ ((preceding >? n) = false ->
      1 <= month <= 12 /\ 1 <= n - preceding + 1 <= month_len_flag leap month).
Proof.
  intros Hn. cbv zeta. rewrite Z.shiftr_div_pow2 by lia.
  change (2 ^ 5) with 32.
  assert (1 <= (n + 50) / 32 <= 12) as Hm by zdiv.
  assert (32 * ((n + 50) / 32) <= n + 50 < 32 * ((n + 50) / 32) + 32) as Hq
    by zdiv.
  set (month := (n + 50) / 32) in *.
  assert (month = 1 \/ month = 2 \/ month = 3 \/ month = 4 \/ month = 5
          \/ month = 6 \/ month = 7 \/ month = 8 \/ month = 9 \/ month = 10
          \/ month = 11 \/ month = 12) as Hcases by lia.
  clearbody month.
  destruct leap;
    repeat (destruct Hcases as [-> | Hcases]); try subst month;
    unfold month_start_flag, month_len_flag; simpl;
    (split; intros Hgt;
     [ apply Z.gtb_lt in Hgt
     | rewrite Z.gtb_ltb in Hgt; apply Z.ltb_ge in Hgt ];
     lia).
Qed.

Lemma days_in_month_flag (year month : Z) :
  1 <= month <= 12 ->
  days_in_month year month = month_len_flag (is_leap year) month.
Proof.
  intros Hm. unfold days_in_month, month_len_flag.
  destruct (Z.eqb_spec month 2) as [-> | Hne]; simpl.
  - destruct (is_leap year); reflexivity.
  - lia.
Qed.

(** The year counted in cycles of 400, 100, 4 and 1 years. *)
Lemma year_of_cycles (a b c e : Z) :
  0 <= b <= 3 -> 0 <= c <= 24 -> 0 <= e <= 3 ->
  let year := a * 400 + 1 + b * 100 + c * 4 + e in
  days_before_year year = a * 146097 + b * 36524 + c * 1461 + e * 365
  /\ is_leap year = (e =? 3) && (negb (c =? 24) || (b =? 3)).
Proof.
  intros Hb Hc He. cbv zeta. split.
  - unfold days_before_year. cbv zeta. zdiv.
  - unfold is_leap.
    destruct (Z.eqb_spec e 3), (Z.eqb_spec c 24), (Z.eqb_spec b 3); simpl;
      repeat match goal with
        | |- context [?x =? 0] => destruct (Z.eqb_spec x 0); simpl
        end; try reflexivity; exfalso; zdiv.
Qed.

(** [date.fromordinal] gives a date of the calendar, and [toordinal] takes
    it back. *)
Lemma ord2ymd_sound (n : Z) :
  let '(y, m, d) := ord2ymd n in
  1 <= m <= 12 /\ 1 <= d <= days_in_month y m /\ ymd2ord y m d = n.
Proof.
  unfold ord2ymd, DI400Y, DI100Y, DI4Y. cbv zeta.
  set (n0 := n - 1).
  set (a := n0 / 146097). set (r1 := n0 mod 146097).
  set (b := r1 / 36524). set (r2 := r1 mod 36524).
  set (c := r2 / 1461). set (r3 := r2 mod 1461).
  set (e := r3 / 365). set (r4 := r3 mod 365).
  assert (n0 = 146097 * a + r1 /\ 0 <= r1 < 146097) as [Hn0 Hr1]
    by (subst a r1; zdiv).
  assert (r1 = 36524 * b + r2 /\ 0 <= r2 < 36524 /\ 0 <= b <= 4)
    as [Hr1' [Hr2 Hb]] by (subst b r2; zdiv).
  assert (r2 = 1461 * c + r3 /\ 0 <= r3 < 1461 /\ 0 <= c <= 24)
    as [Hr2' [Hr3 Hc]] by (subst c r3; zdiv).
  assert (r3 = 365 * e + r4 /\ 0 <= r4 < 365 /\ 0 <= e <= 4)
    as [Hr3' [Hr4 He]] by (subst e r4; zdiv).
  clearbody a r1 b r2 c r3 e r4.
  destruct (Z.eqb_spec e 4) as [He4 | He4]; simpl orb.
  - (* the last day of a four-year cycle *)
    assert (c <= 23) as Hc' by lia.
    destruct (year_of_cycles a b c 3 ltac:(lia) ltac:(lia) ltac:(lia))
      as [Hdby Hleap].
    cbv zeta in Hdby, Hleap.
    replace (a * 400 + 1 + b * 100 + c * 4 + e - 1)
      with (a * 400 + 1 + b * 100 + c * 4 + 3) by lia.
    assert (b <= 3) as Hb' by lia.
    unfold ymd2ord, days_in_month, days_before_month.
    rewrite Hdby, Hleap.
    replace (c =? 24) with false by (symmetry; apply Z.eqb_neq; lia).
    simpl. lia.
  - destruct (Z.eqb_spec b 4) as [Hb4 | Hb4].
    + (* the last day of a 400-year cycle *)
      assert (r2 = 0 /\ c = 0 /\ r3 = 0 /\ e = 0) as [-> [-> [-> ->]]] by lia.
      subst b.
      destruct (year_of_cycles a 3 24 3 ltac:(lia) ltac:(lia) ltac:(lia))
        as [Hdby Hleap].
      cbv zeta in Hdby, Hleap.
      replace (a * 400 + 1 + 4 * 100 + 0 * 4 + 0 - 1)
        with (a * 400 + 1 + 3 * 100 + 24 * 4 + 3) by lia.
      unfold ymd2ord, days_in_month, days_before_month.
      rewrite Hdby, Hleap. simpl. lia.
    + destruct (year_of_cycles a b c e ltac:(lia) ltac:(lia) ltac:(lia))
        as [Hdby Hleap].
      cbv zeta in Hdby, Hleap.
      set (year := a * 400 + 1 + b * 100 + c * 4 + e) in *.
      rewrite <- Hleap.
      destruct (month_of_yearday (is_leap year) r4 Hr4) as [Hprev Hthis].
      cbv zeta in Hprev, Hthis.
      fold (month_start_flag (is_leap year) (Z.shiftr (r4 + 50) 5)).
      set (month := Z.shiftr (r4 + 50) 5) in *.
      destruct (month_start_flag (is_leap year) month >? r4) eqn:Hgt.
      * destruct (Hprev eq_refl) as [Hm [Hp Hd]].
        fold (month_len_flag (is_leap year) (month - 1)).
        rewrite days_in_month_flag by exact Hm.
        repeat split; try lia.
        unfold ymd2ord. rewrite Hdby.
        change (days_before_month year (month - 1))
          with (month_start_flag (is_leap year) (month - 1)).
        lia.
      * destruct (Hthis eq_refl) as [Hm Hd].
        rewrite days_in_month_flag by exact Hm.
        repeat split; try lia.
        unfold ymd2ord. rewrite Hdby.
        change (days_before_month year month)
          with (month_start_flag (is_leap year) month).
        lia.
Qed.

Ltac month_cases m :=
  let H := fresh "Hcases" in
  assert (m = 1 \/ m = 2 \/ m = 3 \/ m = 4 \/ m = 5 \/ m = 6 \/ m = 7
          \/ m = 8 \/ m = 9 \/ m = 10 \/ m = 11 \/ m = 12) as H by lia;
  repeat (destruct H as [-> | H]); try subst m.

Lemma days_before_year_step (y : Z) :
  days_before_year (y + 1)
  = days_before_year y + 365 + (if is_leap y then 1 else 0).
Proof.
  unfold days_before_year, is_leap. cbv zeta.
  replace (y + 1 - 1) with y by lia.
  destruct (Z.eqb_spec (y mod 4) 0), (Z.eqb_spec (y mod 100) 0),
    (Z.eqb_spec (y mod 400) 0); simpl; zdiv.
Qed.

Lemma days_before_year_mono (y y' : Z) :
  y <= y' -> days_before_year y <= days_before_year y'.
Proof. unfold days_before_year. cbv zeta. intros H. zdiv. Qed.

Lemma days_in_month_range (y m : Z) :
  1 <= m <= 12 -> 28 <= days_in_month y m <= 31.
Proof.
  intros Hm. unfold days_in_month.
  month_cases m; destruct (is_leap y); simpl; lia.
Qed.

(** The first day of the next month follows the last day of the month. *)
Lemma next_month_start (y m : Z) :
  1 <= m <= 12 ->
  1 <= snd (next_month y m) <= 12
  /\ ymd2ord (fst (next_month y m)) (snd (next_month y m)) 1
     = ymd2ord y m 1 + days_in_month y m.
Proof.
  intros Hm. unfold next_month, ymd2ord, days_before_month, days_in_month.
  month_cases m; simpl; try rewrite days_before_year_step;
    destruct (is_leap y); simpl; lia.
Qed.

Lemma ymd2ord_year_range (y m d : Z) :
  1 <= m <= 12 -> 1 <= d <= days_in_month y m ->
  days_before_year y < ymd2ord y m d <= days_before_year (y + 1).
Proof.
  intros Hm Hd. rewrite days_before_year_step.
  unfold ymd2ord, days_before_month, days_in_month in *.
  month_cases m; destruct (is_leap y); simpl in *; lia.
Qed.

Lemma ymd2ord_inj (y m d y' m' d' : Z) :
  1 <= m <= 12 -> 1 <= d <= days_in_month y m ->
  1 <= m' <= 12 -> 1 <= d' <= days_in_month y' m' ->
  ymd2ord y m d = ymd2ord y' m' d' ->
  y = y' /\ m = m' /\ d = d'.
Proof.
  intros Hm Hd Hm' Hd' Heq.
  pose proof (ymd2ord_year_range y m d Hm Hd) as Hr.
  pose proof (ymd2ord_year_range y' m' d' Hm' Hd') as Hr'.
  assert (y = y') as <-.
  { destruct (Z.lt_trichotomy y y') as [Hlt | [Heqy | Hgt]]; trivial.
    - pose proof (days_before_year_mono (y + 1) y' ltac:(lia)). lia.
    - pose proof (days_before_year_mono (y' + 1) y ltac:(lia)). lia. }
  split; [ reflexivity |].
  unfold ymd2ord, days_before_month, days_in_month in *.
  clear Hr Hr'.
  month_cases m; month_cases m'; destruct (is_leap y); simpl in *; lia.
Qed.

(** [toordinal] and [fromordinal] are inverse on the dates of the calendar. *)
Lemma ord2ymd_ymd2ord (y m d : Z) :
  1 <= m <= 12 -> 1 <= d <= days_in_month y m ->
  ord2ymd (ymd2ord y m d) = (y, m, d).
Proof.
  intros Hm Hd.
  pose proof (ord2ymd_sound (ymd2ord y m d)) as Hs.
  destruct (ord2ymd (ymd2ord y m d)) as [[y' m'] d'].
  destruct Hs as [Hm' [Hd' Heq]].
  destruct (ymd2ord_inj y' m' d' y m d Hm' Hd' Hm Hd Heq) as [-> [-> ->]].
  reflexivity.
Qed.

(** The chosen weekday on or after the first day of the month. *)
Lemma first_weekday_of_month_spec (w y m : Z) :
  0 <= w < 7 ->
  is_first_weekday_of_month w (first_weekday_of_month w y m) (y, m).
Proof.
  intros Hw. unfold is_first_weekday_of_month, first_weekday_of_month, weekday.
  cbv zeta. simpl fst. simpl snd.
  replace (ymd2ord y m 7) with (ymd2ord y m 1 + 6)
    by (unfold ymd2ord; lia).
  set (first := ymd2ord y m 1). clearbody first.
  split; zdiv.
Qed.

(** ** Datetimes on the calendar *)

Lemma wall_split (d : datetime) :
  wall d = toordinal d * us_per_day + time_of_day d
  /\ 0 <= time_of_day d < us_per_day.
Proof. unfold toordinal, time_of_day. units. zdiv. Qed.

Lemma replace_microsecond0_spec (d : datetime) :
  toordinal (replace_microsecond0 d) = toordinal d
  /\ 0 <= time_of_day (replace_microsecond0 d) <= time_of_day d
  /\ utcoffset (replace_microsecond0 d) = utcoffset d.
Proof.
  unfold replace_microsecond0, toordinal, time_of_day. simpl.
  units. repeat split; zdiv.
Qed.

Lemma month_occurrence_spec (pick : Z -> Z -> Z) (dtstart : datetime)
    (ym : Z * Z) :
  wall (month_occurrence pick dtstart ym)
  = pick (fst ym) (snd ym) * us_per_day + time_of_day dtstart
  /\ toordinal (month_occurrence pick dtstart ym) = pick (fst ym) (snd ym)
  /\ time_of_day (month_occurrence pick dtstart ym) = time_of_day dtstart
  /\ utcoffset (month_occurrence pick dtstart ym) = utcoffset dtstart.
Proof.
  destruct (wall_split dtstart) as [_ Ht].
  unfold month_occurrence. repeat split.
  - apply toordinal_combine, Ht.
  - unfold time_of_day at 1. simpl. apply time_of_day_combine, Ht.
Qed.

Lemma nth_month_S (ym : Z * Z) (k : nat) :
  nth_month ym (S k)
  = next_month (fst (nth_month ym k)) (snd (nth_month ym k)).
Proof. reflexivity. Qed.

(** The months after a month of the calendar are months of the calendar,
    each beginning when the one before ends. *)
Lemma nth_month_start (ym : Z * Z) (k : nat) :
  1 <= snd ym <= 12 ->
  1 <= snd (nth_month ym k) <= 12
  /\ ymd2ord (fst (nth_month ym (S k))) (snd (nth_month ym (S k))) 1
     = ymd2ord (fst (nth_month ym k)) (snd (nth_month ym k)) 1
       + days_in_month (fst (nth_month ym k)) (snd (nth_month ym k)).
Proof.
  intros Hm.
  assert (1 <= snd (nth_month ym k) <= 12) as Hk.
  { induction k as [| k IH]; [ exact Hm |].
    rewrite nth_month_S. now apply next_month_start. }
  split; [ exact Hk |].
  rewrite nth_month_S. now apply next_month_start.
Qed.

(** One turn of the monthly walk, at the [k]-th month after [p]: it stops
    at an occurrence after [until], and otherwise goes on to the next month,
    keeping the occurrence when it is not before [dtstart]. *)
Lemma rrule_monthly_iter_stop (fuel : nat) (pick : Z -> Z -> Z)
    (dtstart until : datetime) (p : Z * Z) (k : nat) :
  dt_gtb (month_occurrence pick dtstart (nth_month p k)) until = true ->
  rrule_monthly_iter (S fuel) pick dtstart until
    (fst (nth_month p k)) (snd (nth_month p k)) = [].
Proof.
  intros Hgt. simpl rrule_monthly_iter.
  fold (month_occurrence pick dtstart (nth_month p k)).
  rewrite Hgt. reflexivity.
Qed.

Lemma rrule_monthly_iter_step (fuel : nat) (pick : Z -> Z -> Z)
    (dtstart until : datetime) (p : Z * Z) (k : nat) :
  dt_gtb (month_occurrence pick dtstart (nth_month p k)) until = false ->
  rrule_monthly_iter (S fuel) pick dtstart until
    (fst (nth_month p k)) (snd (nth_month p k))
  = (if dt_geb (month_occurrence pick dtstart (nth_month p k)) dtstart
     then [month_occurrence pick dtstart (nth_month p k)] else [])
    ++ rrule_monthly_iter fuel pick dtstart until
         (fst (nth_month p (S k))) (snd (nth_month p (S k))).
Proof.
  intros Hgt. rewrite nth_month_S.
  generalize dependent (nth_month p k). intros ym Hgt.
  simpl rrule_monthly_iter.
  fold (month_occurrence pick dtstart ym). rewrite Hgt.
  destruct (next_month (fst ym) (snd ym)).
  destruct (dt_geb _ dtstart); reflexivity.
Qed.

Lemma rrule_monthly_iter_take (fuel : nat) (pick : Z -> Z -> Z)
    (dtstart until : datetime) (p : Z * Z) (k : nat) :
  utc dtstart <= utc (month_occurrence pick dtstart (nth_month p k))
  <= utc until ->
  rrule_monthly_iter (S fuel) pick dtstart until
    (fst (nth_month p k)) (snd (nth_month p k))
  = month_occurrence pick dtstart (nth_month p k)
    :: rrule_monthly_iter fuel pick dtstart until
         (fst (nth_month p (S k))) (snd (nth_month p (S k))).
Proof.
  intros [Hl Hu]. rewrite rrule_monthly_iter_step by now apply dt_gtb_le.
  unfold dt_geb. apply dt_ltb_ge in Hl. rewrite Hl. reflexivity.
Qed.

(** Where the first weekdays of five months in a row lie, against a start
    in the first month and an end in the fourth; all at one UTC offset. *)
Lemma quarter_window
    (off t t0 o d0 day s0 s1 s2 s3 s4 l0 l1 l2 l3 f0 f1 f2 f3 f4 : Z) :
  0 <= t0 <= t -> t < us_per_day ->
  1 <= d0 <= l0 -> o = s0 + d0 - 1 -> 1 <= day <= l3 ->
  s1 = s0 + l0 -> s2 = s1 + l1 -> s3 = s2 + l2 -> s4 = s3 + l3 ->
  28 <= l0 <= 31 -> 28 <= l1 <= 31 -> 28 <= l2 <= 31 -> 28 <= l3 <= 31 ->
  s0 <= f0 <= s0 + 6 -> s1 <= f1 <= s1 + 6 -> s2 <= f2 <= s2 + 6 ->
  s3 <= f3 <= s3 + 6 -> s4 <= f4 <= s4 + 6 ->
  let ws := o * us_per_day + t0 - off in
  let we := (s3 + day - 1) * us_per_day + t - off in
  f0 * us_per_day + t0 - off <= we
  /\ ws <= f1 * us_per_day + t0 - off <= we
  /\ ws <= f2 * us_per_day + t0 - off <= we
  /\ ws <= f3 * us_per_day + t0 - off
  /\ we < f4 * us_per_day + t0 - off
  /\ 57 * us_per_day <= we - ws.
Proof.
  intros. subst o s1 s2 s3 s4. cbv zeta.
  unfold us_per_day, us_per_hour, us_per_minute, us_per_second in *.
  repeat split; lia.
Qed.

Lemma utc_on_day (y m day t off : Z) :
  utc (mkdt (ymd2ord y m day * us_per_day + t) off)
  = (ymd2ord y m 1 + day - 1) * us_per_day + t - off.
Proof. unfold utc, ymd2ord. cbn [wall utcoffset]. ring. Qed.

Lemma utc_month_occurrence (pick : Z -> Z -> Z) (dtstart : datetime)
    (ym : Z * Z) :
  utc (month_occurrence pick dtstart ym)
  = toordinal (month_occurrence pick dtstart ym) * us_per_day
    + time_of_day dtstart - utcoffset dtstart.
Proof.
  destruct (month_occurrence_spec pick dtstart ym) as [Hw [Ho [_ Hoff]]].
  unfold utc. rewrite Ho, Hw, Hoff. reflexivity.
Qed.

Lemma utc_split (d : datetime) :
  utc d = toordinal d * us_per_day + time_of_day d - utcoffset d.
Proof. unfold utc. now rewrite (proj1 (wall_split d)) at 1. Qed.

Lemma is_first_weekday_of_month_range (w ordinal : Z) (ym : Z * Z) :
  is_first_weekday_of_month w ordinal ym ->
  ymd2ord (fst ym) (snd ym) 1 <= ordinal <= ymd2ord (fst ym) (snd ym) 1 + 6.
Proof. intros [_ H]. unfold ymd2ord in *. lia. Qed.

(** A window of eight weeks or more leaves fuel for five months. *)
Lemma months_fuel_quarter (dtstart until : datetime) :
  57 * us_per_day <= utc until - utc dtstart ->
  exists f, months_fuel dtstart until = (5 + f)%nat.
Proof.
  intros Hx. exists (months_fuel dtstart until - 5)%nat.
  assert (5 <= months_fuel dtstart until)%nat; [| lia ].
  unfold months_fuel.
  assert (2 <= (utc until - utc dtstart) / (28 * us_per_day)) as Hq.
  { revert Hx. generalize (utc until - utc dtstart). intros x.
    unfold us_per_day, us_per_hour, us_per_minute, us_per_second.
    intros Hx. zdiv. }
  lia.
Qed.

(** The shape of the list of a quarter: two to four entries. *)
Lemma window_list {A : Type} (b0 b3 : bool) (x0 x1 x2 x3 : A) :
  let l := (if b0 then [x0] else []) ++ [x1; x2]
           ++ (if b3 then [x3] else []) in
  (2 <= List.length l <= 4)%nat
  /\ forall d, In d l ->
       d = x0 /\ b0 = true \/ d = x1 \/ d = x2 \/ d = x3 /\ b3 = true.
Proof.
  destruct b0, b3; simpl; (split; [ lia | intuition auto ]).
Qed.

(** [now + relativedelta(months=3)]: a day of the third month after the
    month of [now], at the clock reading and offset of [now]. *)
Lemma add_relativedelta_3 (now : datetime) :
  let ym := nth_month (month_of_date now) 3 in
  exists day,
    1 <= day <= days_in_month (fst ym) (snd ym)
    /\ add_relativedelta now 3
       = mkdt (ymd2ord (fst ym) (snd ym) day * us_per_day + time_of_day now)
              (utcoffset now).
Proof.
  unfold add_relativedelta, month_of_date.
  change (relativedelta_months 3) with (0, 3).
  pose proof (ord2ymd_sound (toordinal now)) as Hs.
  destruct (ord2ymd (toordinal now)) as [[y m] d].
  destruct Hs as [Hm [Hd _]].
  month_cases m; cbv zeta; simpl; rewrite ?Z.add_0_r;
    match goal with
    | |- context [Z.min (days_in_month ?yy ?mm) d] =>
        pose proof (days_in_month_range yy mm ltac:(lia));
        exists (Z.min (days_in_month yy mm) d)
    end;
    (split; [ lia | reflexivity ]).
Qed.

Lemma month_of_date_spec (d : datetime) :
  let ym := month_of_date d in
  1 <= snd ym <= 12
  /\ exists day,
       1 <= day <= days_in_month (fst ym) (snd ym)
       /\ toordinal d = ymd2ord (fst ym) (snd ym) 1 + day - 1
       /\ ord2ymd (toordinal d) = (fst ym, snd ym, day).
Proof.
  unfold month_of_date.
  pose proof (ord2ymd_sound (toordinal d)) as Hs.
  destruct (ord2ymd (toordinal d)) as [[y m] day].
  destruct Hs as [Hm [Hd Hord]]. simpl.
  split; [ exact Hm |]. exists day. repeat split; try lia.
  unfold ymd2ord in *. lia.
Qed.

(** ** The first Thursdays of a quarter *)

(** C7, as stated, fails: from Thursday 2026-05-07 10:00, itself the first
    Thursday of May, a horizon of three months holds four first Thursdays. *)
Lemma first_thursday_four_dates :
  exists dates,
    generate_candidate_dates thursday_may7 (add_relativedelta thursday_may7 3)
                             "First Thursday of each month"
    = Returns dates
    /\ dates = [mkdatetime 2026 5 7 t1000 EDT_offset;
                mkdatetime 2026 6 4 t1000 EDT_offset;
                mkdatetime 2026 7 2 t1000 EDT_offset;
                mkdatetime 2026 8 6 t1000 EDT_offset]
    /\ List.length dates <> 3%nat.
Proof.
  eexists. split; [ vm_compute; reflexivity |].
  split; [ vm_compute; reflexivity | discriminate ].
Qed.

(** X12. For the first-Thursday pattern and a horizon of three months the
    generator returns, in month order, first Thursdays at the clock reading of
    [now] (to the second), of the months from the month of [now] through the
    month of [end]: always those of the two months in between, that of the
    month of [now] unless it comes before [dtstart], which is [now] with its
    microseconds dropped, and that of the month of [end] unless it comes after
    [end]. These are two to four dates, each the first Thursday of its month
    and within [[dtstart, end]]; the first may so come before [now] by less
    than a second. *)
Theorem first_thursday_candidates (now : datetime) :
  let end_date := add_relativedelta now 3 in
  let dtstart := replace_microsecond0 now in
  let month k := nth_month (month_of_date now) k in
  let T k := month_occurrence (first_weekday_of_month TH) dtstart (month k) in
  let dates :=
    (if dt_geb (T 0%nat) dtstart then [T 0%nat] else [])
    ++ [T 1%nat; T 2%nat]
    ++ (if dt_leb (T 3%nat) end_date then [T 3%nat] else []) in
  generate_candidate_dates now end_date "First Thursday of each month"
  = Returns dates
  /\ (2 <= List.length dates <= 4)%nat
  /\ (forall k, is_first_weekday_of_month TH (toordinal (T k)) (month k))
  /\ month 3%nat = month_of_date end_date
  /\ (forall d, In d dates -> utc dtstart <= utc d <= utc end_date).
Proof.
  intros end_date dtstart month T dates.
  (* the month of [now] *)
  destruct (month_of_date_spec now) as [Hvalid [d0 [Hd0 [Hordnow Hymd]]]].
  cbv zeta in Hvalid, Hd0, Hordnow, Hymd.
  (* the starts of the five months *)
  pose proof (nth_month_start _ 0 Hvalid) as [_ Hs1].
  pose proof (nth_month_start _ 1 Hvalid) as [Hv1 Hs2].
  pose proof (nth_month_start _ 2 Hvalid) as [Hv2 Hs3].
  pose proof (nth_month_start _ 3 Hvalid) as [Hv3 Hs4].
  change (month_of_date now) with (month 0%nat) in Hvalid, Hd0, Hordnow, Hymd.
  fold (month 0%nat) (month 1%nat) (month 2%nat) (month 3%nat)
       (month 4%nat) in *.
  pose proof (days_in_month_range (fst (month 0%nat)) _ Hvalid) as Hl0.
  pose proof (days_in_month_range (fst (month 1%nat)) _ Hv1) as Hl1.
  pose proof (days_in_month_range (fst (month 2%nat)) _ Hv2) as Hl2.
  pose proof (days_in_month_range (fst (month 3%nat)) _ Hv3) as Hl3.
  (* the first Thursdays *)
  assert (forall k, is_first_weekday_of_month TH (toordinal (T k)) (month k))
    as Hfirst.
  { intros k. unfold T.
    destruct (month_occurrence_spec (first_weekday_of_month TH) dtstart
                (month k)) as [_ [-> _]].
    destruct (month k) as [y m].
    apply first_weekday_of_month_spec. unfold TH. lia. }
  (* [end] *)
  destruct (add_relativedelta_3 now) as [day [Hday Hend]].
  fold end_date (month 3%nat) in Hend, Hday.
  assert (month 3%nat = month_of_date end_date) as Hmonth3.
  { unfold month_of_date. rewrite Hend.
    destruct (wall_split now) as [_ Ht].
    rewrite toordinal_combine by exact Ht.
    rewrite ord2ymd_ymd2ord by assumption.
    apply surjective_pairing. }
  (* instants *)
  destruct (wall_split now) as [_ Htnow].
  destruct (replace_microsecond0_spec now) as [Ho0 [Ht0 Hoff0]].
  fold dtstart in Ho0, Ht0, Hoff0.
  assert (forall k,
            utc (T k)
            = toordinal (T k) * us_per_day + time_of_day dtstart
              - utcoffset now) as HT.
  { intros k. unfold T. rewrite utc_month_occurrence, Hoff0. reflexivity. }
  assert (utc end_date
          = (ymd2ord (fst (month 3%nat)) (snd (month 3%nat)) 1 + day - 1)
            * us_per_day + time_of_day now - utcoffset now) as Huend
    by (rewrite Hend; apply utc_on_day).
  assert (utc dtstart
          = toordinal now * us_per_day + time_of_day dtstart - utcoffset now)
    as Hustart by (rewrite utc_split, Ho0, Hoff0; reflexivity).
  (* the five occurrences against the window *)
  pose proof (quarter_window (utcoffset now)
                (time_of_day now) (time_of_day dtstart) (toordinal now) d0 day
                _ _ _ _ _ _ _ _ _ _ _ _ _ _
                Ht0 (proj2 Htnow) Hd0 Hordnow Hday Hs1 Hs2 Hs3 Hs4
                Hl0 Hl1 Hl2 Hl3
                (is_first_weekday_of_month_range _ _ _ (Hfirst 0%nat))
                (is_first_weekday_of_month_range _ _ _ (Hfirst 1%nat))
                (is_first_weekday_of_month_range _ _ _ (Hfirst 2%nat))
                (is_first_weekday_of_month_range _ _ _ (Hfirst 3%nat))
                (is_first_weekday_of_month_range _ _ _ (Hfirst 4%nat)))
    as Hwin.
  cbv zeta in Hwin.
  rewrite <- !HT, <- Huend, <- Hustart in Hwin.
  destruct Hwin as [V0 [V1 [V2 [V3 [V4 Vspan]]]]].
  destruct (months_fuel_quarter dtstart end_date Vspan) as [f Hfuel].
  destruct (window_list (dt_geb (T 0%nat) dtstart)
              (dt_leb (T 3%nat) end_date)
              (T 0%nat) (T 1%nat) (T 2%nat) (T 3%nat)) as [Hlen Hin].
  cbv zeta in Hlen, Hin. fold dates in Hlen, Hin.
  split; [| split; [ exact Hlen | split; [ exact Hfirst
                                         | split; [ exact Hmonth3 |]]]].
  - unfold generate_candidate_dates. rewrite String.eqb_refl.
    f_equal. unfold rrule_monthly. cbv zeta. fold dtstart.
    rewrite Ho0, Hymd, Hfuel.
    change (5 + f)%nat with (S (S (S (S (S f))))).
    set (p := month_of_date now) in *.
    rewrite (rrule_monthly_iter_step _ _ _ _ p 0)
      by (apply dt_gtb_le; exact V0).
    rewrite (rrule_monthly_iter_take _ _ _ _ p 1) by exact V1.
    rewrite (rrule_monthly_iter_take _ _ _ _ p 2) by exact V2.
    unfold dates, T, month.
    f_equal. cbn [app]. f_equal. f_equal.
    unfold dt_leb.
    fold (dt_gtb (month_occurrence (first_weekday_of_month TH) dtstart
                    (nth_month p 3)) end_date).
    destruct (dt_gtb (month_occurrence (first_weekday_of_month TH) dtstart
                        (nth_month p 3)) end_date) eqn:H3; cbn [negb].
    + apply rrule_monthly_iter_stop. exact H3.
    + rewrite (rrule_monthly_iter_take _ _ _ _ p 3)
        by (split; [ exact V3 | apply dt_gtb_le; exact H3 ]).
      rewrite (rrule_monthly_iter_stop _ _ _ _ p 4)
        by (apply dt_gtb_gt; exact V4).
      reflexivity.
  - intros d Hd.
    destruct (Hin d Hd) as [[-> Hge] | [-> | [-> | [-> Hle]]]].
    + split; [| exact V0 ]. apply dt_geb_ge. exact Hge.
    + exact V1.
    + exact V2.
    + split; [ exact V3 |]. apply dt_leb_le. exact Hle.
Qed.

(** ** Normalization of the busy events *)

Lemma utc_astimezone (fromutc : Z -> Z) (d : datetime) :
  utc (astimezone fromutc d) = utc d.
Proof. unfold astimezone, utc. cbn [wall utcoffset]. lia. Qed.

Lemma overlaps_instants (slot : Slot) (e e' : Event) :
  event_instants e = event_instants e' ->
  overlaps slot e = overlaps slot e'.
Proof.
  unfold event_instants. intros H. injection H as Hs He.
  unfold overlaps, dt_gtb, dt_ltb. rewrite Hs, He. reflexivity.
Qed.

(** X1. [normalize_events_timezone] moves every event to the reference zone
    and changes nothing else: labels, instants, number and order of the events
    stay, every datetime gets the offset the zone has at its instant, a second
    pass changes nothing, and the Conflict Detector answers the same on the
    normalized events as on the events given. *)
Theorem normalize_events_timezone_keeps_instants
    (fromutc : Z -> Z) (events : list Event) (slot : Slot) :
  map summary (normalize_events_timezone fromutc events) = map summary events
  /\ map event_instants (normalize_events_timezone fromutc events)
     = map event_instants events
  /\ (forall e, In e (normalize_events_timezone fromutc events) ->
        utcoffset (ev_start e) = fromutc (utc (ev_start e))
        /\ utcoffset (ev_end e) = fromutc (utc (ev_end e)))
  /\ normalize_events_timezone fromutc
       (normalize_events_timezone fromutc events)
     = normalize_events_timezone fromutc events
  /\ has_conflict slot (normalize_events_timezone fromutc events)
     = has_conflict slot events.
Proof.
  unfold normalize_events_timezone.
  split; [| split; [| split; [| split ]]].
  - rewrite map_map. reflexivity.
  - rewrite map_map. apply map_ext. intros e.
    unfold event_instants. cbn [ev_start ev_end].
    now rewrite !utc_astimezone.
  - intros e Hin. apply in_map_iff in Hin. destruct Hin as [e0 [<- _]].
    cbn [ev_start ev_end]. rewrite !utc_astimezone. split; reflexivity.
  - rewrite map_map. apply map_ext. intros e.
    cbn [summary ev_start ev_end].
    assert (forall d, astimezone fromutc (astimezone fromutc d)
                      = astimezone fromutc d) as Hidem.
    { intros d. unfold astimezone at 1 3.
      rewrite utc_astimezone. reflexivity. }
    now rewrite !Hidem.
  - rewrite !has_conflict_existsb.
    induction events as [| e rest IH]; [ reflexivity |].
    cbn [map existsb]. rewrite IH. f_equal.
    apply overlaps_instants. unfold event_instants. cbn [ev_start ev_end].
    now rewrite !utc_astimezone.
Qed.

(** ** The Conflict Detector and the event list *)

(** X2. The answer of [has_conflict] depends on which events the list holds,
    not on their order or on how often one occurs. *)
Theorem has_conflict_depends_on_the_event_set
    (slot : Slot) (events events' : list Event) :
  (forall e, In e events <-> In e events') ->
  has_conflict slot events = has_conflict slot events'.
Proof.
  intros Hsame.
  destruct (has_conflict slot events) eqn:H1;
    destruct (has_conflict slot events') eqn:H2; try reflexivity; exfalso.
  - apply has_conflict_true_iff in H1. destruct H1 as [e [Hin Hov]].
    apply Hsame in Hin.
    assert (has_conflict slot events' = true) as H
      by (apply has_conflict_true_iff; eauto).
    congruence.
  - apply has_conflict_true_iff in H2. destruct H2 as [e [Hin Hov]].
    apply Hsame in Hin.
    assert (has_conflict slot events = true) as H
      by (apply has_conflict_true_iff; eauto).
    congruence.
Qed.

Lemma has_conflict_depends_on_the_event_set_witness :
  has_conflict (slot_2026 1 5 t0900 60) [busy_jan5; busy_jan5]
  = has_conflict (slot_2026 1 5 t0900 60) [busy_jan5].
Proof.
  apply (has_conflict_depends_on_the_event_set (slot_2026 1 5 t0900 60)
           [busy_jan5; busy_jan5] [busy_jan5]).
  intros e. simpl. tauto.
Defined.

(** ** The first free probe *)

Lemma probe_0 (current_time : datetime) (d : Z) :
  probe current_time d 0
  = mkSlot current_time (dt_add current_time (timedelta_minutes d)).
Proof.
  unfold probe. cbv zeta. change (Z.of_nat 0 * timedelta_minutes 30) with 0.
  now rewrite dt_add_0.
Qed.

Lemma probe_S (current_time : datetime) (d : Z) (j : nat) :
  probe (dt_add current_time (timedelta_minutes 30)) d j
  = probe current_time d (S j).
Proof.
  unfold probe. cbv zeta. rewrite dt_add_add, Nat2Z.inj_succ.
  replace (Z.succ (Z.of_nat j) * timedelta_minutes 30)
    with (timedelta_minutes 30 + Z.of_nat j * timedelta_minutes 30) by ring.
  reflexivity.
Qed.

Lemma utc_probe (current_time : datetime) (d : Z) (j : nat) :
  utc (start (probe current_time d j))
  = utc current_time + Z.of_nat j * timedelta_minutes 30
  /\ utc (end_ (probe current_time d j))
     = utc current_time + Z.of_nat j * timedelta_minutes 30
       + timedelta_minutes d.
Proof. unfold probe. cbn [start end_]. rewrite !utc_dt_add. lia. Qed.

(** The scan returns the first probe that fits and is free, having found a
    conflict at every probe before it. *)
Lemma scan_first_free (fuel : nat) (current_time day_end : datetime) (d : Z)
    (events : list Event) (s : Slot) :
  scan fuel current_time day_end d events = Some s ->
  exists k : nat,
    s = probe current_time d k
    /\ probe_fits current_time day_end d k
    /\ has_conflict s events = false
    /\ forall j, (j < k)%nat ->
         probe_fits current_time day_end d j
         /\ has_conflict (probe current_time d j) events = true.
Proof.
  revert current_time.
  induction fuel as [| fuel IH]; intros current_time Hscan.
  - discriminate.
  - rewrite scan_S in Hscan. cbv zeta in Hscan.
    rewrite <- probe_0 in Hscan.
    destruct (dt_ltb current_time day_end) eqn:Hlt; [| discriminate ].
    destruct (dt_gtb (end_ (probe current_time d 0)) day_end) eqn:Hend;
      [ discriminate |].
    assert (probe_fits current_time day_end d 0) as Hfit0.
    { dt_bool. split; [| exact Hend ].
      rewrite probe_0. exact Hlt. }
    destruct (has_conflict (probe current_time d 0) events) eqn:Hc;
      cbn [negb] in Hscan.
    + destruct (IH _ Hscan) as [k [Hs [Hfit [Hfree Hprev]]]].
      exists (S k). rewrite probe_S in Hs. unfold probe_fits in Hfit.
      rewrite probe_S in Hfit.
      split; [ exact Hs | split; [ exact Hfit | split; [ exact Hfree |]]].
      intros [| j] Hj; [ split; assumption |].
      destruct (Hprev j ltac:(lia)) as [Hf Hcj].
      unfold probe_fits in Hf. rewrite probe_S in Hf, Hcj.
      split; assumption.
    + injection Hscan as <-. exists 0%nat.
      split; [ reflexivity | split; [ exact Hfit0 | split; [ exact Hc |]]].
      intros j Hj. lia.
Qed.

(** With fuel for the half hours up to [day_end], the scan returns nothing
    only when every probe that fits has a conflict. *)
Lemma scan_None_all_busy (fuel : nat) (current_time day_end : datetime)
    (d : Z) (events : list Event) :
  utc day_end - utc current_time < Z.of_nat fuel * timedelta_minutes 30 ->
  scan fuel current_time day_end d events = None ->
  forall j, probe_fits current_time day_end d j ->
    has_conflict (probe current_time d j) events = true.
Proof.
  revert current_time.
  induction fuel as [| fuel IH]; intros current_time Hfuel Hscan j [Hs He].
  - exfalso. destruct (utc_probe current_time d j) as [Hu _].
    pose proof half_hour_pos.
    assert (0 <= Z.of_nat j * timedelta_minutes 30) as Hjpos by nia.
    change (Z.of_nat 0 * timedelta_minutes 30) with 0 in Hfuel. lia.
  - rewrite scan_S in Hscan. cbv zeta in Hscan.
    rewrite <- probe_0 in Hscan.
    destruct (utc_probe current_time d j) as [Huj Hej].
    destruct (utc_probe current_time d 0) as [Hu0 He0].
    pose proof half_hour_pos as H30.
    assert (0 <= Z.of_nat j * timedelta_minutes 30) as Hjpos by nia.
    change (Z.of_nat 0 * timedelta_minutes 30) with 0 in Hu0, He0.
    destruct (dt_ltb current_time day_end) eqn:Hlt.
    + destruct (dt_gtb (end_ (probe current_time d 0)) day_end) eqn:Hend.
      * exfalso. dt_bool. lia.
      * destruct (has_conflict (probe current_time d 0) events) eqn:Hc;
          cbn [negb] in Hscan; [| discriminate ].
        destruct j as [| j]; [ exact Hc |].
        rewrite <- probe_S.
        assert (utc day_end
                - utc (dt_add current_time (timedelta_minutes 30))
                < Z.of_nat fuel * timedelta_minutes 30) as Hfuel'.
        { rewrite utc_dt_add. rewrite Nat2Z.inj_succ in Hfuel.
          replace (Z.succ (Z.of_nat fuel) * timedelta_minutes 30)
            with (Z.of_nat fuel * timedelta_minutes 30
                  + timedelta_minutes 30) in Hfuel by ring.
          lia. }
        apply (IH _ Hfuel' Hscan).
        unfold probe_fits. rewrite probe_S. split; assumption.
    + exfalso. dt_bool. lia.
Qed.

(** X3. The Day Availability Search returns the first probe, counted in half
    hours from the entry point of the scan, that starts before 17:00, ends by
    17:00 and has no conflict; it returns nothing exactly when every probe
    that fits has a conflict. *)
Theorem day_search_returns_first_free_probe
    (localize : Z -> Z) (date : datetime) (pt : time) (d : Z)
    (events : list Event) :
  let entry := search_start localize date pt in
  let day_end := day_end_of localize date in
  (forall s,
     find_available_slot_on_day localize date pt d events = Some s
     <-> exists k : nat,
           s = probe entry d k
           /\ probe_fits entry day_end d k
           /\ has_conflict s events = false
           /\ forall j, (j < k)%nat ->
                has_conflict (probe entry d j) events = true)
  /\ (find_available_slot_on_day localize date pt d events = None
      <-> forall j, probe_fits entry day_end d j ->
            has_conflict (probe entry d j) events = true).
Proof.
  intros entry day_end.
  assert (forall s,
            find_available_slot_on_day localize date pt d events = Some s ->
            exists k : nat,
              s = probe entry d k
              /\ probe_fits entry day_end d k
              /\ has_conflict s events = false
              /\ forall j, (j < k)%nat ->
                   has_conflict (probe entry d j) events = true) as Hsome.
  { intros s Hs. unfold find_available_slot_on_day in Hs.
    apply scan_first_free in Hs. destruct Hs as [k [H1 [H2 [H3 H4]]]].
    exists k. repeat split; try assumption.
    - apply H2.
    - apply H2.
    - intros j Hj. apply (H4 j Hj). }
  assert (find_available_slot_on_day localize date pt d events = None ->
          forall j, probe_fits entry day_end d j ->
            has_conflict (probe entry d j) events = true) as Hnone.
  { unfold find_available_slot_on_day. apply scan_None_all_busy.
    apply scan_fuel_covers. }
  split.
  - intros s. split; [ apply Hsome |].
    intros [k [-> [Hfit [Hfree Hprev]]]].
    destruct (find_available_slot_on_day localize date pt d events)
      as [s' |] eqn:Hres.
    + destruct (Hsome s' eq_refl) as [k' [-> [Hfit' [Hfree' Hprev']]]].
      destruct (Nat.lt_trichotomy k k') as [Hlt | [-> | Hgt]].
      * rewrite (Hprev' k Hlt) in Hfree. discriminate.
      * reflexivity.
      * rewrite (Hprev k' Hgt) in Hfree'. discriminate.
    + rewrite (Hnone eq_refl k Hfit) in Hfree. discriminate.
  - split; [ apply Hnone |].
    intros Hall.
    destruct (find_available_slot_on_day localize date pt d events)
      as [s' |] eqn:Hres; [| reflexivity ].
    destruct (Hsome s' eq_refl) as [k' [-> [Hfit' [Hfree' _]]]].
    rewrite (Hall k' Hfit') in Hfree'. discriminate.
Qed.

(** ** Slots on the calendar *)

Lemma search_clock_range (pt : time) :
  time_valid pt -> business_open <= search_clock pt < business_close.
Proof.
  intros Hv. pose proof (time_us_hour pt Hv) as Hh.
  unfold search_clock, business_open, business_close.
  destruct (9 <=? hour pt) eqn:H9; destruct (hour pt <? 17) eqn:H17;
    cbn [andb];
    repeat match goal with
      | H : (_ <=? _) = true |- _ => apply Z.leb_le in H
      | H : (_ <? _) = true |- _ => apply Z.ltb_lt in H
      end;
    unfold us_per_hour, us_per_minute, us_per_second in *; lia.
Qed.

Lemma search_start_clock (localize : Z -> Z) (date : datetime) (pt : time) :
  search_start localize date pt
  = EST_localize localize (toordinal date * us_per_day + search_clock pt).
Proof.
  unfold search_start, search_clock, day_start_of.
  destruct ((9 <=? hour pt) && (hour pt <? 17)); reflexivity.
Qed.

(** In a zone that keeps its offset over business hours, whether a probe
    fits is read off the wall clock. *)
Lemma probe_fits_clock (localize : Z -> Z) (date : datetime) (pt : time)
    (d : Z) (j : nat) :
  business_hours_uniform localize -> time_valid pt ->
  probe_fits (search_start localize date pt) (day_end_of localize date) d j
  <-> search_clock pt + Z.of_nat j * timedelta_minutes 30 < business_close
      /\ search_clock pt + Z.of_nat j * timedelta_minutes 30
         + timedelta_minutes d <= business_close.
Proof.
  intros Hzone Hv. unfold probe_fits.
  destruct (utc_probe (search_start localize date pt) d j) as [-> ->].
  pose proof (search_clock_range pt Hv) as Hc.
  rewrite search_start_clock. unfold utc, EST_localize. cbn [wall utcoffset].
  rewrite wall_day_end_of, utcoffset_day_end_of.
  rewrite (Hzone (toordinal date) (search_clock pt))
    by (unfold business_open, business_close in Hc; lia).
  fold business_open. lia.
Qed.

(** The wall clock of a probe of the scan of a day. *)
Lemma probe_wall (localize : Z -> Z) (date : datetime) (pt : time) (d : Z)
    (j : nat) :
  wall (start (probe (search_start localize date pt) d j))
  = toordinal date * us_per_day
    + (search_clock pt + Z.of_nat j * timedelta_minutes 30)
  /\ wall (end_ (probe (search_start localize date pt) d j))
     = toordinal date * us_per_day
       + (search_clock pt + Z.of_nat j * timedelta_minutes 30
          + timedelta_minutes d).
Proof.
  rewrite search_start_clock. unfold probe, EST_localize, dt_add.
  cbn [start end_ wall]. lia.
Qed.

Lemma find_available_slot_on_day_probe (localize : Z -> Z) (date : datetime)
    (pt : time) (d : Z) (events : list Event) (s : Slot) :
  find_available_slot_on_day localize date pt d events = Some s ->
  exists k : nat,
    s = probe (search_start localize date pt) d k
    /\ probe_fits (search_start localize date pt) (day_end_of localize date)
                  d k.
Proof.
  unfold find_available_slot_on_day. intros Hs.
  apply scan_first_free in Hs. destruct Hs as [k [H1 [H2 _]]]. eauto.
Qed.

Lemma toordinal_wall (w ordinal t : Z) :
  w = ordinal * us_per_day + t -> 0 <= t < us_per_day ->
  w / us_per_day = ordinal.
Proof.
  intros -> Ht. rewrite Z.add_comm, Z.div_add by discriminate.
  rewrite Z.div_small by exact Ht. reflexivity.
Qed.

Lemma day_slot_lies_on_candidate (localize : Z -> Z) (date : datetime)
    (pt : time) (d : Z) (events : list Event) (s : Slot) :
  business_hours_uniform localize ->
  time_valid pt ->
  find_available_slot_on_day localize date pt d events = Some s ->
  toordinal (start s) = toordinal date.
Proof.
  intros Hzone Hv Hs.
  destruct (find_available_slot_on_day_probe _ _ _ _ _ _ Hs) as [k [-> Hfit]].
  apply (probe_fits_clock localize date pt d k Hzone Hv) in Hfit.
  destruct Hfit as [Hlt Hle].
  destruct (probe_wall localize date pt d k) as [Hws _].
  pose proof (search_clock_range pt Hv) as Hc.
  pose proof half_hour_pos as H30.
  assert (0 <= Z.of_nat k * timedelta_minutes 30) as Hk by nia.
  unfold business_open, business_close in *.
  unfold toordinal. apply (toordinal_wall _ _ _ Hws).
  unfold us_per_day. lia.
Qed.

(** X4. A slot of the Day Availability Search lies on the candidate date: it
    starts on that date, at one of the sixteen half-hour probes from the entry
    point, and for a positive duration it ends on that date too. *)
Theorem day_slot_lies_on_the_candidate_date
    (localize : Z -> Z) (date : datetime) (pt : time) (d : Z)
    (events : list Event) (s : Slot) :
  business_hours_uniform localize ->
  time_valid pt ->
  find_available_slot_on_day localize date pt d events = Some s ->
  toordinal (start s) = toordinal date
  /\ (0 < d -> toordinal (end_ s) = toordinal date)
  /\ exists k : nat,
       (k < 16)%nat /\ s = probe (search_start localize date pt) d k.
Proof.
  intros Hzone Hv Hs.
  destruct (find_available_slot_on_day_probe _ _ _ _ _ _ Hs) as [k [-> Hfit]].
  apply (probe_fits_clock localize date pt d k Hzone Hv) in Hfit.
  destruct Hfit as [Hlt Hle].
  destruct (probe_wall localize date pt d k) as [Hws Hwe].
  pose proof (search_clock_range pt Hv) as Hc.
  pose proof half_hour_pos as H30.
  assert (0 <= Z.of_nat k * timedelta_minutes 30) as Hk by nia.
  unfold business_open, business_close in *.
  split; [| split ].
  - unfold toordinal. apply (toordinal_wall _ _ _ Hws).
    unfold us_per_day. lia.
  - intros Hd. unfold toordinal. apply (toordinal_wall _ _ _ Hwe).
    assert (0 < timedelta_minutes d)
      by (unfold timedelta_minutes, us_per_minute, us_per_second; lia).
    unfold us_per_day. lia.
  - exists k. split; [| reflexivity ].
    unfold timedelta_minutes, us_per_hour, us_per_minute, us_per_second in *.
    lia.
Qed.

Lemma day_slot_lies_on_the_candidate_date_witness :
  let s := slot_2026 1 5 (mktime 10 30 0 0) 60 in
  toordinal (start s) = toordinal monday_jan5
  /\ (0 < 60 -> toordinal (end_ s) = toordinal monday_jan5)
  /\ exists k : nat,
       (k < 16)%nat /\ s = probe (search_start EST_winter monday_jan5 t0900)
                                 60 k.
Proof.
  apply (day_slot_lies_on_the_candidate_date EST_winter monday_jan5 t0900 60
           [mkEvent "Standup" (mkdatetime 2026 1 5 t0900 EST_offset)
                    (mkdatetime 2026 1 5 t1000 EST_offset)]).
  - intros ordinal t Ht. reflexivity.
  - vm_compute. intuition discriminate.
  - vm_compute. reflexivity.
Defined.

Lemma toordinal_dt_add_weeks (d : datetime) (w : Z) :
  toordinal (dt_add d (timedelta_weeks w)) = toordinal d + 7 * w.
Proof.
  unfold toordinal, dt_add, timedelta_weeks. cbn [wall].
  replace (wall d + w * 7 * us_per_day)
    with (wall d + (7 * w) * us_per_day) by ring.
  apply Z.div_add. discriminate.
Qed.

Lemma weekday_plus_weeks (ordinal w : Z) :
  weekday (ordinal + 7 * w) = weekday ordinal.
Proof.
  unfold weekday.
  replace (ordinal + 7 * w + 6) with (ordinal + 6 + w * 7) by ring.
  apply Z.mod_add. discriminate.
Qed.

(** X5. A slot of the Fallback Search lies one to four weeks before or after
    the base date, on the same weekday, on a date inside the scheduling
    window, and is the slot the Day Availability Search finds on that date. *)
Theorem fallback_slot_keeps_the_weekday
    (localize : Z -> Z) (base_date : datetime) (pt : time) (d : Z)
    (events : list Event) (end_date start_date : datetime) (s : Slot) :
  business_hours_uniform localize ->
  time_valid pt ->
  find_slot_on_nearby_dates localize base_date pt d events end_date start_date
  = Some s ->
  exists w : Z,
    1 <= Z.abs w <= 4
    /\ toordinal (start s) = toordinal base_date + 7 * w
    /\ weekday (toordinal (start s)) = weekday (toordinal base_date)
    /\ utc start_date <= utc base_date + 7 * w * us_per_day <= utc end_date
    /\ find_available_slot_on_day localize
         (dt_add base_date (timedelta_weeks w)) pt d events = Some s.
Proof.
  intros Hzone Hv Hs. unfold find_slot_on_nearby_dates in Hs.
  apply nearby_loop_Some in Hs. destruct Hs as [i [w [Hnth [Hatt _]]]].
  assert (In w week_offsets) as Hin by (eapply nth_error_In; eauto).
  unfold fallback_attempt in Hatt. cbv zeta in Hatt.
  destruct ((utc start_date <=? utc (dt_add base_date (w * 7 * us_per_day)))
            && (utc (dt_add base_date (w * 7 * us_per_day))
                <=? utc end_date)) eqn:Hwin; [| discriminate ].
  apply andb_true_iff in Hwin. destruct Hwin as [H1 H2].
  apply Z.leb_le in H1, H2. rewrite utc_dt_add in H1, H2.
  change (w * 7 * us_per_day) with (timedelta_weeks w) in Hatt.
  pose proof (day_slot_lies_on_candidate _ _ _ _ _ _ Hzone Hv Hatt) as Hday.
  rewrite toordinal_dt_add_weeks in Hday.
  exists w. split; [| split; [ exact Hday | split; [| split ]]].
  - unfold week_offsets in Hin. simpl in Hin.
    repeat (destruct Hin as [<- | Hin]; [ simpl; lia |]). contradiction.
  - rewrite Hday. apply weekday_plus_weeks.
  - lia.
  - exact Hatt.
Qed.

Lemma fallback_slot_keeps_the_weekday_witness :
  exists w : Z,
    1 <= Z.abs w <= 4
    /\ toordinal (start (slot_2026 1 12 t0900 60))
       = toordinal monday_jan5 + 7 * w
    /\ weekday (toordinal (start (slot_2026 1 12 t0900 60)))
       = weekday (toordinal monday_jan5)
    /\ utc monday_jan5 <= utc monday_jan5 + 7 * w * us_per_day
       <= utc monday_feb2
    /\ find_available_slot_on_day EST_winter
         (dt_add monday_jan5 (timedelta_weeks w)) t0900 60 [busy_jan5]
       = Some (slot_2026 1 12 t0900 60).
Proof.
  apply (fallback_slot_keeps_the_weekday EST_winter monday_jan5 t0900 60
           [busy_jan5] monday_feb2 monday_jan5 (slot_2026 1 12 t0900 60)).
  - intros ordinal t Ht. reflexivity.
  - vm_compute. intuition discriminate.
  - vm_compute. reflexivity.
Defined.

(** ** The whole run *)

Lemma nearby_loop_all_None (localize : Z -> Z) (offsets : list Z)
    (base_date : datetime) (pt : time) (d : Z) (events : list Event)
    (end_date start_date : datetime) :
  (forall date, find_available_slot_on_day localize date pt d events = None) ->
  nearby_loop localize offsets base_date pt d events end_date start_date
  = None.
Proof.
  intros Hnone. apply nearby_loop_None. intros w _.
  unfold fallback_attempt. cbv zeta.
  destruct (_ && _); [ apply Hnone | reflexivity ].
Qed.

Lemma collect_slots_all_None (localize : Z -> Z) (candidates : list datetime)
    (pt : time) (d : Z) (events : list Event) (end_date now : datetime) :
  (forall date, find_available_slot_on_day localize date pt d events = None) ->
  collect_slots localize candidates pt d events end_date now = [].
Proof.
  intros Hnone. induction candidates as [| c rest IH]; [ reflexivity |].
  rewrite collect_slots_cons, Hnone.
  unfold find_slot_on_nearby_dates.
  rewrite nearby_loop_all_None by exact Hnone. exact IH.
Qed.

(** X6. A meeting that cannot end by 17:00 when started at the entry point of
    the scan is never scheduled: the run returns the empty sequence, whatever
    the calendar, the pattern and the horizon. *)
Theorem meeting_too_long_for_the_day_gets_no_slot
    (fromutc localize : Z -> Z) (now : datetime) (events : list Event)
    (pt : time) (d : Z) (recurrence : string) (months_ahead : Z) :
  business_hours_uniform localize ->
  time_valid pt ->
  business_close < search_clock pt + timedelta_minutes d ->
  find_optimal_slots fromutc localize now events pt d recurrence months_ahead
  = Returns [].
Proof.
  intros Hzone Hv Hlong.
  assert (forall evs date,
            find_available_slot_on_day localize date pt d evs = None)
    as Hnone.
  { intros evs date.
    destruct (find_available_slot_on_day localize date pt d evs)
      as [s |] eqn:Hs; [| reflexivity ].
    exfalso.
    destruct (find_available_slot_on_day_probe _ _ _ _ _ _ Hs)
      as [k [_ Hfit]].
    apply (probe_fits_clock localize date pt d k Hzone Hv) in Hfit.
    pose proof half_hour_pos.
    assert (0 <= Z.of_nat k * timedelta_minutes 30) by nia.
    lia. }
  unfold find_optimal_slots.
  destruct (find_optimal_slots_returns fromutc localize now events pt d
              recurrence months_ahead) as [slots Hret].
  unfold find_optimal_slots in Hret.
  destruct (generate_candidate_dates now (add_relativedelta now months_ahead)
              recurrence) as [candidates | e]; [| discriminate ].
  f_equal. apply collect_slots_all_None. apply Hnone.
Qed.

Lemma meeting_too_long_for_the_day_gets_no_slot_witness :
  find_optimal_slots EST_winter EST_winter monday_jan5 [] t0900 500
                     "Weekly" 1
  = Returns [].
Proof.
  apply (meeting_too_long_for_the_day_gets_no_slot EST_winter EST_winter
           monday_jan5 [] t0900 500 "Weekly" 1).
  - intros ordinal t Ht. reflexivity.
  - vm_compute. intuition discriminate.
  - vm_compute. reflexivity.
Defined.

Lemma collect_slots_free (localize : Z -> Z) (candidates : list datetime)
    (pt : time) (d : Z) (events : list Event) (end_date now : datetime) :
  (forall date,
     find_available_slot_on_day localize date pt d events
     = Some (probe (search_start localize date pt) d 0)) ->
  collect_slots localize candidates pt d events end_date now
  = map (fun date => probe (search_start localize date pt) d 0) candidates.
Proof.
  intros Hfree. induction candidates as [| c rest IH]; [ reflexivity |].
  rewrite collect_slots_cons, Hfree, IH. reflexivity.
Qed.

(** X7. On an empty calendar every candidate date gets a slot, at the entry
    point of the scan on that date, as long as a meeting started there ends by
    17:00: the output has one slot for each candidate date, in their order. *)
Theorem empty_calendar_schedules_every_candidate
    (fromutc localize : Z -> Z) (now : datetime) (pt : time) (d : Z)
    (recurrence : string) (months_ahead : Z) :
  business_hours_uniform localize ->
  time_valid pt ->
  search_clock pt + timedelta_minutes d <= business_close ->
  exists candidates,
    generate_candidate_dates now (add_relativedelta now months_ahead)
                             recurrence
    = Returns candidates
    /\ find_optimal_slots fromutc localize now [] pt d recurrence
                          months_ahead
       = Returns (map (fun date =>
                         probe (search_start localize date pt) d 0)
                      candidates).
Proof.
  intros Hzone Hv Hfits.
  assert (forall date,
            find_available_slot_on_day localize date pt d []
            = Some (probe (search_start localize date pt) d 0)) as Hfree.
  { intros date.
    assert (probe_fits (search_start localize date pt)
                       (day_end_of localize date) d 0) as [Hlt Hle].
    { apply (probe_fits_clock localize date pt d 0 Hzone Hv).
      pose proof (search_clock_range pt Hv).
      change (Z.of_nat 0 * timedelta_minutes 30) with 0. lia. }
    rewrite (find_available_slot_on_day_total localize date pt d [] 1).
    rewrite Nat.add_1_r. rewrite probe_0 in *.
    apply scan_first_probe; trivial. }
  unfold find_optimal_slots.
  destruct (generate_candidate_dates now (add_relativedelta now months_ahead)
              recurrence) as [candidates | e] eqn:Hgen.
  - exists candidates. split; [ reflexivity |].
    f_equal. apply collect_slots_free. exact Hfree.
  - exfalso. unfold generate_candidate_dates in Hgen.
    repeat match type of Hgen with
      | (if ?b then _ else _) = _ => destruct b
      end; discriminate.
Qed.

Lemma empty_calendar_schedules_every_candidate_witness :
  exists candidates,
    generate_candidate_dates monday_jan5 (add_relativedelta monday_jan5 1)
                             "Weekly"
    = Returns candidates
    /\ find_optimal_slots EST_winter EST_winter monday_jan5 [] t0900 60
                          "Weekly" 1
       = Returns (map (fun date =>
                         probe (search_start EST_winter date t0900) 60 0)
                      candidates).
Proof.
  apply (empty_calendar_schedules_every_candidate EST_winter EST_winter
           monday_jan5 t0900 60 "Weekly" 1).
  - intros ordinal t Ht. reflexivity.
  - vm_compute. intuition discriminate.
  - vm_compute. discriminate.
Defined.

Lemma collect_slots_length (localize : Z -> Z) (candidates : list datetime)
    (pt : time) (d : Z) (events : list Event) (end_date now : datetime) :
  (List.length (collect_slots localize candidates pt d events end_date now)
   <= List.length candidates)%nat.
Proof.
  induction candidates as [| c rest IH]; [ apply le_n |].
  rewrite collect_slots_cons.
  destruct (find_available_slot_on_day localize c pt d events).
  - simpl. lia.
  - destruct (find_slot_on_nearby_dates localize c pt d events end_date now);
      simpl; lia.
Qed.

(** X8. The run proposes at most one slot for each candidate date: the output
    is never longer than the candidate sequence. *)
Theorem at_most_one_slot_per_candidate
    (fromutc localize : Z -> Z) (now : datetime) (events : list Event)
    (pt : time) (d : Z) (recurrence : string) (months_ahead : Z) :
  exists candidates slots,
    generate_candidate_dates now (add_relativedelta now months_ahead)
                             recurrence
    = Returns candidates
    /\ find_optimal_slots fromutc localize now events pt d recurrence
                          months_ahead
       = Returns slots
    /\ (List.length slots <= List.length candidates)%nat.
Proof.
  unfold find_optimal_slots.
  destruct (generate_candidate_dates now (add_relativedelta now months_ahead)
              recurrence) as [candidates | e] eqn:Hgen.
  - exists candidates. eexists. split; [ reflexivity |].
    split; [ reflexivity |]. apply collect_slots_length.
  - exfalso. unfold generate_candidate_dates in Hgen.
    repeat match type of Hgen with
      | (if ?b then _ else _) = _ => destruct b
      end; discriminate.
Qed.

(** ** The weekly patterns *)

Lemma rrule_weekly_iter_map (fuel : nat) (interval : Z)
    (until res : datetime) :
  0 < interval ->
  fuel = Z.to_nat ((utc until - utc res) / timedelta_weeks interval + 1) ->
  rrule_weekly_iter fuel interval until res
  = map (fun k => dt_add res (Z.of_nat k * timedelta_weeks interval))
        (seq 0 fuel).
Proof.
  intros Hpos. revert res.
  assert (0 < timedelta_weeks interval) as HW
    by (unfold timedelta_weeks, us_per_day, us_per_hour, us_per_minute,
          us_per_second; lia).
  induction fuel as [| fuel IH]; intros res Hfuel; [ reflexivity |].
  assert (0 <= utc until - utc res) as Hin.
  { destruct (Z.lt_ge_cases (utc until - utc res) 0) as [Hneg | Hok];
      [| exact Hok ].
    exfalso.
    assert ((utc until - utc res) / timedelta_weeks interval < 0)
      by (apply Z.div_lt_upper_bound; lia).
    lia. }
  cbn [rrule_weekly_iter].
  replace (dt_gtb res until) with false
    by (symmetry; apply dt_gtb_le; lia).
  cbn [seq map]. f_equal.
  - change (Z.of_nat 0 * timedelta_weeks interval) with 0.
    now rewrite dt_add_0.
  - rewrite <- seq_shift, map_map. rewrite IH.
    + apply map_ext. intros k. rewrite dt_add_add. f_equal.
      rewrite Nat2Z.inj_succ. ring.
    + rewrite utc_dt_add.
      replace (utc until - (utc res + timedelta_weeks interval))
        with (utc until - utc res + (-1) * timedelta_weeks interval) by ring.
      rewrite Z.div_add by lia. lia.
Qed.

(** X9. For "Weekly", "Every two weeks" and every string that is not one of
    the two monthly patterns, the candidate dates are [now] with its
    microseconds dropped and then every 7th (14th for "Every two weeks") day
    after it, up to the last one not after [end]: none inside the window is
    left out. *)
Theorem weekly_candidates_step_from_now
    (start_date end_date : datetime) (recurrence : string) :
  recurrence <> "First Thursday of each month"%string ->
  recurrence <> "Last Friday of each month"%string ->
  let step :=
    (if String.eqb recurrence "Every two weeks" then 14 else 7)
    * us_per_day in
  let first := replace_microsecond0 start_date in
  exists n : nat,
    generate_candidate_dates start_date end_date recurrence
    = Returns (map (fun k => dt_add first (Z.of_nat k * step)) (seq 0 n))
    /\ (forall k, (k < n)%nat -> utc first + Z.of_nat k * step <= utc end_date)
    /\ utc end_date < utc first + Z.of_nat n * step
    /\ (utc first <= utc end_date -> (1 <= n)%nat).
Proof.
  intros H1 H2 step first.
  set (interval := if String.eqb recurrence "Every two weeks" then 2 else 1).
  assert (0 < interval) as Hpos
    by (unfold interval; destruct (_ =? _)%string; lia).
  assert (step = timedelta_weeks interval) as Hstep.
  { unfold step, interval, timedelta_weeks.
    destruct (_ =? _)%string; ring. }
  assert (0 < step) as HW
    by (rewrite Hstep; unfold timedelta_weeks, us_per_day, us_per_hour,
          us_per_minute, us_per_second; lia).
  assert (generate_candidate_dates start_date end_date recurrence
          = Returns (rrule_weekly interval start_date end_date)) as Hgen.
  { unfold generate_candidate_dates, interval.
    destruct (String.eqb_spec recurrence "First Thursday of each month");
      [ contradiction |].
    destruct (String.eqb_spec recurrence "Last Friday of each month");
      [ contradiction |].
    destruct (String.eqb recurrence "Every two weeks"); reflexivity. }
  exists (weeks_fuel interval first end_date).
  rewrite Hgen. unfold rrule_weekly, weeks_fuel. cbv zeta. fold first.
  rewrite (rrule_weekly_iter_map _ interval end_date first Hpos eq_refl).
  rewrite <- Hstep.
  set (x := utc end_date - utc first).
  assert (utc end_date = utc first + x) as Hx by (unfold x; lia).
  clearbody x. rewrite Hx.
  pose proof (Z.mul_div_le x step HW) as Hlo.
  pose proof (Z.mul_succ_div_gt x step HW) as Hhi.
  split; [ reflexivity | split; [| split ]].
  - intros k Hk.
    assert (Z.of_nat k < x / step + 1) as Hk' by lia.
    assert (Z.of_nat k * step <= (x / step) * step) by nia.
    lia.
  - destruct (Z.lt_ge_cases (x / step + 1) 0) as [Hneg | Hok].
    + replace (Z.to_nat (x / step + 1)) with 0%nat by lia. simpl. nia.
    + rewrite Z2Nat.id by exact Hok. nia.
  - intros Hle. assert (0 <= x / step) by (apply Z.div_pos; lia). lia.
Qed.

Lemma weekly_candidates_step_from_now_witness :
  let step :=
    (if String.eqb "Weekly" "Every two weeks" then 14 else 7) * us_per_day in
  let first := replace_microsecond0 monday_jan5 in
  exists n : nat,
    generate_candidate_dates monday_jan5 monday_feb2 "Weekly"
    = Returns (map (fun k => dt_add first (Z.of_nat k * step)) (seq 0 n))
    /\ (forall k, (k < n)%nat ->
          utc first + Z.of_nat k * step <= utc monday_feb2)
    /\ utc monday_feb2 < utc first + Z.of_nat n * step
    /\ (utc first <= utc monday_feb2 -> (1 <= n)%nat).
Proof.
  apply (weekly_candidates_step_from_now monday_jan5 monday_feb2 "Weekly");
    discriminate.
Defined.

(** ** The monthly patterns *)

Lemma first_weekday_within_month (w : Z) :
  0 <= w < 7 -> pick_within_month (first_weekday_of_month w).
Proof.
  intros Hw y m Hm.
  destruct (first_weekday_of_month_spec w y m Hw) as [_ H].
  cbn [fst snd] in H.
  pose proof (days_in_month_range y m Hm).
  unfold ymd2ord in *. lia.
Qed.

(** The chosen weekday on or before the last day of the month. *)
Lemma last_weekday_of_month_spec (w y m : Z) :
  0 <= w < 7 ->
  is_last_weekday_of_month w (last_weekday_of_month w y m) (y, m).
Proof.
  intros Hw. unfold is_last_weekday_of_month, last_weekday_of_month, weekday.
  cbv zeta. cbn [fst snd].
  set (last := ymd2ord y m (days_in_month y m)). clearbody last.
  split; zdiv.
Qed.

Lemma last_weekday_within_month (w : Z) :
  0 <= w < 7 -> pick_within_month (last_weekday_of_month w).
Proof.
  intros Hw y m Hm.
  destruct (last_weekday_of_month_spec w y m Hw) as [_ H].
  cbn [fst snd] in H.
  pose proof (days_in_month_range y m Hm).
  unfold ymd2ord in *. lia.
Qed.

(** The occurrences of a monthly rule move on by a day or more, and by four
    weeks or more a month from the start of the first month. *)
Lemma month_occurrence_step (pick : Z -> Z -> Z) (dtstart : datetime)
    (p : Z * Z) (k : nat) :
  pick_within_month pick -> 1 <= snd p <= 12 ->
  utc (month_occurrence pick dtstart (nth_month p k)) + us_per_day
  <= utc (month_occurrence pick dtstart (nth_month p (S k)))
  /\ (ymd2ord (fst p) (snd p) 1 + 28 * Z.of_nat k) * us_per_day
     + time_of_day dtstart - utcoffset dtstart
     <= utc (month_occurrence pick dtstart (nth_month p k)).
Proof.
  intros Hpick Hp.
  assert (forall j,
            ymd2ord (fst p) (snd p) 1 + 28 * Z.of_nat j
            <= ymd2ord (fst (nth_month p j)) (snd (nth_month p j)) 1)
    as Hgrow.
  { induction j as [| j IH]; [ simpl; lia |].
    destruct (nth_month_start p j Hp) as [Hv Hs].
    pose proof (days_in_month_range (fst (nth_month p j)) _ Hv).
    rewrite Hs. lia. }
  destruct (nth_month_start p k Hp) as [Hv Hs].
  destruct (nth_month_start p (S k) Hp) as [Hv' _].
  pose proof (Hpick (fst (nth_month p k)) _ Hv) as Hk.
  pose proof (Hpick (fst (nth_month p (S k))) _ Hv') as Hk'.
  pose proof (Hgrow k) as Hg.
  rewrite !utc_month_occurrence.
  destruct (month_occurrence_spec pick dtstart (nth_month p k))
    as [_ [-> _]].
  destruct (month_occurrence_spec pick dtstart (nth_month p (S k)))
    as [_ [-> _]].
  set (a := pick (fst (nth_month p k)) (snd (nth_month p k))) in *.
  set (b := pick (fst (nth_month p (S k))) (snd (nth_month p (S k)))) in *.
  assert (a + 1 <= b) as Hab by (unfold ymd2ord in *; lia).
  assert (ymd2ord (fst p) (snd p) 1 + 28 * Z.of_nat k <= a) as Hga by lia.
  clearbody a b.
  generalize dependent (ymd2ord (fst p) (snd p) 1 + 28 * Z.of_nat k).
  intros g _ Hga.
  unfold us_per_day, us_per_hour, us_per_minute, us_per_second.
  split; lia.
Qed.

Lemma month_occurrence_increasing (pick : Z -> Z -> Z) (dtstart : datetime)
    (p : Z * Z) (j k : nat) :
  pick_within_month pick -> 1 <= snd p <= 12 -> (j < k)%nat ->
  utc (month_occurrence pick dtstart (nth_month p j))
  < utc (month_occurrence pick dtstart (nth_month p k)).
Proof.
  intros Hpick Hp Hjk. induction Hjk as [| k Hle IH].
  - destruct (month_occurrence_step pick dtstart p j Hpick Hp) as [H _].
    assert (0 < us_per_day) by reflexivity. lia.
  - destruct (month_occurrence_step pick dtstart p k Hpick Hp) as [H _].
    assert (0 < us_per_day) by reflexivity. lia.
Qed.

(** What the monthly walk yields from the [k0]-th month on. *)
Lemma rrule_monthly_iter_In (fuel : nat) (pick : Z -> Z -> Z)
    (dtstart until : datetime) (p : Z * Z) (k0 : nat) (d : datetime) :
  In d (rrule_monthly_iter fuel pick dtstart until
          (fst (nth_month p k0)) (snd (nth_month p k0)))
  <-> exists k,
        (k0 <= k < k0 + fuel)%nat
        /\ d = month_occurrence pick dtstart (nth_month p k)
        /\ utc dtstart <= utc d
        /\ forall j, (k0 <= j <= k)%nat ->
             utc (month_occurrence pick dtstart (nth_month p j))
             <= utc until.
Proof.
  revert k0. induction fuel as [| fuel IH]; intros k0.
  - split; [ intros [] | intros [k [Hk _]]; lia ].
  - destruct (dt_gtb (month_occurrence pick dtstart (nth_month p k0)) until)
      eqn:Hgt.
    + rewrite rrule_monthly_iter_stop by exact Hgt.
      split; [ intros [] |].
      intros [k [Hk [_ [_ Hall]]]].
      apply dt_gtb_gt in Hgt. specialize (Hall k0 ltac:(lia)). lia.
    + rewrite rrule_monthly_iter_step by exact Hgt.
      apply dt_gtb_le in Hgt.
      rewrite in_app_iff, IH. split.
      * intros [Hhere | [k [Hk [Hd [Hge Hall]]]]].
        -- destruct (dt_geb _ dtstart) eqn:Hge; [| destruct Hhere ].
           destruct Hhere as [<- | []].
           exists k0. apply dt_geb_ge in Hge.
           repeat split; try lia; trivial.
           intros j Hj. replace j with k0 by lia. exact Hgt.
        -- exists k. repeat split; try lia; trivial.
           intros j Hj. destruct (Nat.eq_dec j k0) as [-> | Hne];
             [ exact Hgt | apply Hall; lia ].
      * intros [k [Hk [Hd [Hge Hall]]]].
        destruct (Nat.eq_dec k k0) as [-> | Hne].
        -- left. subst d. apply dt_geb_ge in Hge. rewrite Hge.
           left. reflexivity.
        -- right. exists k. repeat split; try lia; trivial.
           intros j Hj. apply Hall. lia.
Qed.

(** The walk yields its occurrences in ascending order. *)
Lemma rrule_monthly_iter_ascending (fuel : nat) (pick : Z -> Z -> Z)
    (dtstart until : datetime) (p : Z * Z) (k0 : nat) :
  pick_within_month pick -> 1 <= snd p <= 12 ->
  dt_ascending (rrule_monthly_iter fuel pick dtstart until
                  (fst (nth_month p k0)) (snd (nth_month p k0))).
Proof.
  intros Hpick Hp. revert k0.
  induction fuel as [| fuel IH]; intros k0 i j a b Hij Ha Hb.
  - destruct i; discriminate.
  - destruct (dt_gtb (month_occurrence pick dtstart (nth_month p k0)) until)
      eqn:Hgt.
    + rewrite rrule_monthly_iter_stop in Ha by exact Hgt.
      destruct i; discriminate.
    + rewrite rrule_monthly_iter_step in Ha, Hb by exact Hgt.
      destruct (dt_geb _ dtstart); cbn [app] in Ha, Hb.
      * destruct i as [| i]; destruct j as [| j]; try lia;
          cbn [nth_error] in Ha, Hb.
        -- injection Ha as <-.
           apply nth_error_In in Hb. apply rrule_monthly_iter_In in Hb.
           destruct Hb as [k [Hk [-> _]]].
           apply month_occurrence_increasing; trivial. lia.
        -- apply (IH (S k0) i j a b); trivial. lia.
      * apply (IH (S k0) i j a b); trivial.
Qed.

Lemma rrule_monthly_unfold (pick : Z -> Z -> Z) (dtstart until : datetime) :
  rrule_monthly pick dtstart until
  = rrule_monthly_iter
      (months_fuel (replace_microsecond0 dtstart) until) pick
      (replace_microsecond0 dtstart) until
      (fst (nth_month (month_of_date dtstart) 0))
      (snd (nth_month (month_of_date dtstart) 0)).
Proof.
  unfold rrule_monthly, month_of_date. cbv zeta.
  destruct (replace_microsecond0_spec dtstart) as [-> _].
  destruct (ord2ymd (toordinal dtstart)) as [[y m] d]. reflexivity.
Qed.

(** The fuel of the monthly walk reaches past [until]. *)
Lemma months_fuel_covers (pick : Z -> Z -> Z) (dtstart until : datetime)
    (k : nat) :
  pick_within_month pick ->
  utc (month_occurrence pick (replace_microsecond0 dtstart)
         (nth_month (month_of_date dtstart) k)) <= utc until ->
  (k < months_fuel (replace_microsecond0 dtstart) until)%nat.
Proof.
  intros Hpick Hle.
  destruct (month_of_date_spec dtstart) as [Hp [day [Hday [Hord _]]]].
  cbv zeta in Hp, Hday, Hord.
  pose proof (days_in_month_range (fst (month_of_date dtstart)) _ Hp) as Hdim.
  destruct (month_occurrence_step pick (replace_microsecond0 dtstart)
              (month_of_date dtstart) k Hpick Hp) as [_ Hgrow].
  destruct (replace_microsecond0_spec dtstart) as [Ho [_ _]].
  pose proof (utc_split (replace_microsecond0 dtstart)) as Hu.
  rewrite Ho, Hord in Hu.
  unfold months_fuel.
  set (x := utc until - utc (replace_microsecond0 dtstart)).
  assert ((28 * Z.of_nat k - 30) * us_per_day <= x) as Hx.
  { unfold x.
    generalize dependent
      (utc (month_occurrence pick (replace_microsecond0 dtstart)
              (nth_month (month_of_date dtstart) k))).
    intros tk Hle Hgrow.
    generalize dependent (ymd2ord (fst (month_of_date dtstart))
                            (snd (month_of_date dtstart)) 1).
    intros s0 _ Hu Hgrow.
    unfold us_per_day, us_per_hour, us_per_minute, us_per_second in *. lia. }
  clearbody x. clear - Hx.
  assert (Z.of_nat k < x / (28 * us_per_day) + 3) as Hq.
  { revert Hx. unfold us_per_day, us_per_hour, us_per_minute, us_per_second.
    intros Hx. zdiv. }
  lia.
Qed.

(** The candidates of a monthly rule are its occurrences, month after month
    from the month of [dtstart], that fall inside the window, in ascending
    order. *)
Lemma rrule_monthly_spec (pick : Z -> Z -> Z) (dtstart until : datetime) :
  pick_within_month pick ->
  (forall d,
     In d (rrule_monthly pick dtstart until)
     <-> exists k,
           d = month_occurrence pick (replace_microsecond0 dtstart)
                 (nth_month (month_of_date dtstart) k)
           /\ utc (replace_microsecond0 dtstart) <= utc d <= utc until)
  /\ dt_ascending (rrule_monthly pick dtstart until).
Proof.
  intros Hpick.
  destruct (month_of_date_spec dtstart) as [Hp _]. cbv zeta in Hp.
  rewrite rrule_monthly_unfold. split.
  - intros d. rewrite rrule_monthly_iter_In. split.
    + intros [k [_ [Hd [Hge Hall]]]]. exists k.
      split; [ exact Hd |]. split; [ exact Hge |].
      rewrite Hd. apply Hall. lia.
    + intros [k [Hd [Hge Hle]]]. exists k.
      rewrite Hd in Hle.
      pose proof (months_fuel_covers pick dtstart until k Hpick Hle).
      repeat split; try lia; trivial.
      intros j Hj. destruct (Nat.eq_dec j k) as [-> | Hne]; [ exact Hle |].
      pose proof (month_occurrence_increasing pick
                    (replace_microsecond0 dtstart) (month_of_date dtstart)
                    j k Hpick Hp ltac:(lia)).
      lia.
  - apply rrule_monthly_iter_ascending; assumption.
Qed.

(** X10. For "First Thursday of each month", whatever the window, the
    candidates are exactly the first Thursdays (at the clock reading of [now],
    to the second) of the months from the month of [now] on that lie between
    [now], its microseconds dropped, and [end]; they come in ascending
    order. *)
Theorem first_thursdays_in_the_window (start_date end_date : datetime) :
  let dtstart := replace_microsecond0 start_date in
  let month k := nth_month (month_of_date start_date) k in
  let T k := month_occurrence (first_weekday_of_month TH) dtstart (month k) in
  exists dates,
    generate_candidate_dates start_date end_date
                             "First Thursday of each month"
    = Returns dates
    /\ (forall d,
          In d dates
          <-> exists k, d = T k /\ utc dtstart <= utc d <= utc end_date)
    /\ dt_ascending dates
    /\ forall k, is_first_weekday_of_month TH (toordinal (T k)) (month k).
Proof.
  intros dtstart month T.
  exists (rrule_monthly (first_weekday_of_month TH) start_date end_date).
  assert (0 <= TH < 7) as Hw by (unfold TH; lia).
  destruct (rrule_monthly_spec (first_weekday_of_month TH) start_date
              end_date (first_weekday_within_month TH Hw)) as [Hin Hasc].
  split; [ reflexivity | split; [ exact Hin | split; [ exact Hasc |]]].
  intros k. unfold T.
  destruct (month_occurrence_spec (first_weekday_of_month TH) dtstart
              (month k)) as [_ [-> _]].
  destruct (month k) as [y m].
  apply first_weekday_of_month_spec. exact Hw.
Qed.

(** X11. For "Last Friday of each month", whatever the window, the candidates
    are exactly the last Fridays (at the clock reading of [now], to the
    second) of the months from the month of [now] on that lie between [now],
    its microseconds dropped, and [end]; they come in ascending order. *)
Theorem last_fridays_in_the_window (start_date end_date : datetime) :
  let dtstart := replace_microsecond0 start_date in
  let month k := nth_month (month_of_date start_date) k in
  let T k := month_occurrence (last_weekday_of_month FR) dtstart (month k) in
  exists dates,
    generate_candidate_dates start_date end_date "Last Friday of each month"
    = Returns dates
    /\ (forall d,
          In d dates
          <-> exists k, d = T k /\ utc dtstart <= utc d <= utc end_date)
    /\ dt_ascending dates
    /\ forall k, is_last_weekday_of_month FR (toordinal (T k)) (month k).
Proof.
  intros dtstart month T.
  exists (rrule_monthly (last_weekday_of_month FR) start_date end_date).
  assert (0 <= FR < 7) as Hw by (unfold FR; lia).
  destruct (rrule_monthly_spec (last_weekday_of_month FR) start_date
              end_date (last_weekday_within_month FR Hw)) as [Hin Hasc].
  split; [ reflexivity | split; [ exact Hin | split; [ exact Hasc |]]].
  intros k. unfold T.
  destruct (month_occurrence_spec (last_weekday_of_month FR) dtstart
              (month k)) as [_ [-> _]].
  destruct (month k) as [y m].
  apply last_weekday_of_month_spec. exact Hw.
Qed.

(** ** Reading a calendar *)

Lemma datetime_min_value : datetime_min = us_per_day.
Proof. reflexivity. Qed.

Lemma datetime_max_value : datetime_max = 3652060 * us_per_day - 1.
Proof. reflexivity. Qed.

Lemma in_range_spec (naive : Z) :
  in_range naive = true <-> us_per_day <= naive <= 3652060 * us_per_day - 1.
Proof.
  unfold in_range. rewrite datetime_min_value, datetime_max_value.
  rewrite andb_true_iff, !Z.leb_le. reflexivity.
Qed.

(** [EST.localize] takes midnight and the last microsecond of every date but
    the first and the last of the calendar. *)
Lemma localize_date_guard (ordinal clock : Z) :
  0 <= clock < us_per_day ->
  in_range (ordinal * us_per_day + clock - us_per_day)
  && in_range (ordinal * us_per_day + clock + us_per_day)
  = (ymd2ord 1 1 2 <=? ordinal) && (ordinal <=? ymd2ord 9999 12 30).
Proof.
  intros Hc.
  replace (ymd2ord 1 1 2) with 2 by reflexivity.
  replace (ymd2ord 9999 12 30) with 3652058 by reflexivity.
  apply eq_true_iff_eq.
  rewrite !andb_true_iff, !in_range_spec, !Z.leb_le.
  unfold us_per_day, us_per_hour, us_per_minute, us_per_second in *. lia.
Qed.

Lemma parse_start_converts (fromutc localize : Z -> Z) (v : ical_value) :
  value_converts fromutc v = true ->
  parse_start fromutc localize v
  = Done (match v with
          | AwareDatetime d => astimezone fromutc d
          | NaiveDatetime naive => astimezone fromutc (UTC_localize naive)
          | DateValue ordinal =>
              EST_localize localize (combine ordinal min_time)
          | OtherValue => UTC_localize 0
          end).
Proof.
  destruct v as [d | naive | ordinal |]; cbn [value_converts parse_start].
  - unfold astimezone_EST. now intros ->.
  - unfold astimezone_EST, UTC_localize, utc. cbn [wall utcoffset].
    rewrite Z.sub_0_r. now intros ->.
  - unfold EST_localize_naive, combine.
    rewrite (localize_date_guard ordinal (time_us min_time))
      by (vm_compute; intuition discriminate).
    now intros ->.
  - discriminate.
Qed.

Lemma parse_end_converts (fromutc localize : Z -> Z) (v : ical_value) :
  value_converts fromutc v = true ->
  parse_end fromutc localize v
  = Done (match v with
          | AwareDatetime d => astimezone fromutc d
          | NaiveDatetime naive => astimezone fromutc (UTC_localize naive)
          | DateValue ordinal =>
              EST_localize localize (combine ordinal max_time)
          | OtherValue => UTC_localize 0
          end).
Proof.
  destruct v as [d | naive | ordinal |]; cbn [value_converts parse_end].
  - unfold astimezone_EST. now intros ->.
  - unfold astimezone_EST, UTC_localize, utc. cbn [wall utcoffset].
    rewrite Z.sub_0_r. now intros ->.
  - unfold EST_localize_naive, combine.
    rewrite (localize_date_guard ordinal (time_us max_time))
      by (vm_compute; intuition discriminate).
    now intros ->.
  - discriminate.
Qed.

Lemma parse_start_fails (fromutc localize : Z -> Z) (v : ical_value) :
  value_converts fromutc v = false ->
  exists e, parse_start fromutc localize v = Raised e.
Proof.
  destruct v as [d | naive | ordinal |]; cbn [value_converts parse_start].
  - unfold astimezone_EST. intros ->. eauto.
  - unfold astimezone_EST, UTC_localize, utc. cbn [wall utcoffset].
    rewrite Z.sub_0_r. intros ->. eauto.
  - unfold EST_localize_naive, combine.
    rewrite (localize_date_guard ordinal (time_us min_time))
      by (vm_compute; intuition discriminate).
    intros ->. eauto.
  - eauto.
Qed.

Lemma parse_end_fails (fromutc localize : Z -> Z) (v : ical_value) :
  value_converts fromutc v = false ->
  exists e, parse_end fromutc localize v = Raised e.
Proof.
  destruct v as [d | naive | ordinal |]; cbn [value_converts parse_end].
  - unfold astimezone_EST. intros ->. eauto.
  - unfold astimezone_EST, UTC_localize, utc. cbn [wall utcoffset].
    rewrite Z.sub_0_r. intros ->. eauto.
  - unfold EST_localize_naive, combine.
    rewrite (localize_date_guard ordinal (time_us max_time))
      by (vm_compute; intuition discriminate).
    intros ->. eauto.
  - eauto.
Qed.

(** An event with both times in order is read. *)
Lemma parse_event_readable (fromutc localize : Z -> Z) (c : Component)
    (start_time end_time : ical_value) :
  c_dtstart c = Some (Property start_time) ->
  c_dtend c = Some (Property end_time) ->
  value_converts fromutc start_time = true ->
  value_converts fromutc end_time = true ->
  exists start_est end_est,
    parse_start fromutc localize start_time = Done start_est
    /\ parse_end fromutc localize end_time = Done end_est
    /\ parse_event fromutc localize c
       = Done (Some (mkEvent (summary_of c) start_est end_est)).
Proof.
  intros Hs Ht Hcs Hct. unfold parse_event. rewrite Hs, Ht.
  cbn [dt_of bind].
  rewrite (parse_start_converts fromutc localize _ Hcs).
  rewrite (parse_end_converts fromutc localize _ Hct).
  cbn [bind]. eauto.
Qed.

(** Any other event is passed over. *)
Lemma parse_event_unreadable (fromutc localize : Z -> Z) (c : Component) :
  property_converts fromutc (c_dtstart c)
  && property_converts fromutc (c_dtend c) = false ->
  parse_event fromutc localize c = Done None
  \/ exists e, parse_event fromutc localize c = Raised e.
Proof.
  unfold parse_event, property_converts.
  destruct (c_dtstart c) as [[s |] |]; destruct (c_dtend c) as [[t |] |];
    cbn [dt_of bind]; intros H;
    try (left; reflexivity); try (right; eexists; reflexivity).
  right.
  destruct (value_converts fromutc s) eqn:Hs.
  - rewrite (parse_start_converts fromutc localize _ Hs). cbn [bind].
    cbn [andb] in H.
    destruct (parse_end_fails fromutc localize _ H) as [e ->].
    cbn [bind]. eauto.
  - destruct (parse_start_fails fromutc localize _ Hs) as [e ->].
    cbn [bind]. eauto.
Qed.

Lemma parse_components_cons (fromutc localize : Z -> Z) (c : Component)
    (rest : list Component) :
  parse_components fromutc localize (c :: rest)
  = (if readable fromutc c
     then match parse_event fromutc localize c with
          | Done (Some event) => [event]
          | _ => []
          end
     else [])
    ++ parse_components fromutc localize rest.
Proof.
  unfold readable. cbn [parse_components].
  destruct (String.eqb (c_name c) "VEVENT"); [| reflexivity ].
  cbn [andb].
  destruct (property_converts fromutc (c_dtstart c)
            && property_converts fromutc (c_dtend c)) eqn:Hconv.
  - destruct (parse_event fromutc localize c) as [[event |] | e]; reflexivity.
  - destruct (parse_event_unreadable fromutc localize c Hconv)
      as [-> | [e ->]]; reflexivity.
Qed.

(** What a readable component holds. *)
Lemma readable_inv (fromutc : Z -> Z) (c : Component) :
  readable fromutc c = true ->
  c_name c = "VEVENT"%string
  /\ exists start_time end_time,
       c_dtstart c = Some (Property start_time)
       /\ c_dtend c = Some (Property end_time)
       /\ value_converts fromutc start_time = true
       /\ value_converts fromutc end_time = true.
Proof.
  unfold readable, property_converts. rewrite !andb_true_iff.
  intros [[Hn Hs] Ht]. apply String.eqb_eq in Hn. split; [ exact Hn |].
  destruct (c_dtstart c) as [[s |] |]; try discriminate.
  destruct (c_dtend c) as [[t |] |]; try discriminate.
  exists s, t. auto.
Qed.

Lemma parse_components_In (fromutc localize : Z -> Z)
    (components : list Component) (c : Component)
    (start_time end_time : ical_value) (start_est end_est : datetime) :
  In c components ->
  c_name c = "VEVENT"%string ->
  c_dtstart c = Some (Property start_time) ->
  c_dtend c = Some (Property end_time) ->
  parse_start fromutc localize start_time = Done start_est ->
  parse_end fromutc localize end_time = Done end_est ->
  In (mkEvent (summary_of c) start_est end_est)
     (parse_components fromutc localize components).
Proof.
  intros Hin Hn Hs Ht Hps Hpe.
  induction components as [| c' rest IH]; [ destruct Hin |].
  cbn [parse_components].
  destruct Hin as [-> | Hin].
  - rewrite Hn, String.eqb_refl. unfold parse_event.
    rewrite Hs, Ht. cbn [dt_of bind]. rewrite Hps, Hpe. cbn [bind].
    now left.
  - specialize (IH Hin).
    destruct (String.eqb (c_name c') "VEVENT"); [| exact IH ].
    destruct (parse_event fromutc localize c') as [[event |] | e];
      [ now right | exact IH | exact IH ].
Qed.

(** X13. [parse_ics] turns an error of the reader into [ValueError].
    Otherwise it gives one event, in order, for each VEVENT whose DTSTART and
    DTEND each occur once and hold a time that converts within the range of
    [datetime], and nothing for any other component: a date converts
    from 0001-01-02 to 9999-12-30. A time with a zone keeps its instant; a
    time without a zone is read as UTC; a date becomes 00:00 of that day as
    start and 23:59:59.999999 of that day as end, on the wall clock of the
    reference zone. The label is the summary, or "No Title". *)
Theorem parse_ics_reads_events
    (fromutc localize : Z -> Z) (from_ical : string -> attempt (list Component))
    (file : string) :
  let value_read (at_date : Z) (v : ical_value) (d : datetime) : Prop :=
    match v with
    | AwareDatetime d0 =>
        utc d = utc d0 /\ utcoffset d = fromutc (utc d0)
    | NaiveDatetime naive =>
        utc d = naive /\ utcoffset d = fromutc naive
    | DateValue ordinal =>
        ymd2ord 1 1 2 <= ordinal <= ymd2ord 9999 12 30
        /\ wall d = ordinal * us_per_day + at_date
        /\ utcoffset d = localize (ordinal * us_per_day + at_date)
    | OtherValue => False
    end in
  match from_ical file with
  | Raised _ => parse_ics fromutc localize from_ical file = Raised ValueError
  | Done components =>
      exists events,
        parse_ics fromutc localize from_ical file = Done events
        /\ List.length events
           = List.length (filter (readable fromutc) components)
        /\ map summary events
           = map summary_of (filter (readable fromutc) components)
        /\ forall i e,
             nth_error events i = Some e ->
             exists c start_time end_time,
               nth_error (filter (readable fromutc) components) i = Some c
               /\ c_name c = "VEVENT"%string
               /\ c_dtstart c = Some (Property start_time)
               /\ c_dtend c = Some (Property end_time)
               /\ value_read 0 start_time (ev_start e)
               /\ value_read (us_per_day - 1) end_time (ev_end e)
  end.
Proof.
  intros value_read. unfold parse_ics.
  destruct (from_ical file) as [components | err]; [| reflexivity ].
  exists (parse_components fromutc localize components).
  split; [ reflexivity |].
  assert (forall at_date t v,
            time_us t = at_date ->
            value_converts fromutc v = true ->
            value_read at_date v
              (match v with
               | AwareDatetime d => astimezone fromutc d
               | NaiveDatetime naive =>
                   astimezone fromutc (UTC_localize naive)
               | DateValue ordinal =>
                   EST_localize localize (combine ordinal t)
               | OtherValue => UTC_localize 0
               end)) as Hval.
  { intros at_date t v Ht Hc. unfold value_read.
    destruct v as [d0 | naive | ordinal |].
    - rewrite utc_astimezone. split; reflexivity.
    - rewrite utc_astimezone. unfold astimezone, UTC_localize, utc.
      cbn [wall utcoffset]. rewrite Z.sub_0_r. split; reflexivity.
    - cbn [value_converts] in Hc. apply andb_true_iff in Hc.
      rewrite !Z.leb_le in Hc.
      unfold EST_localize, combine. cbn [wall utcoffset]. rewrite Ht.
      split; [ exact Hc | split; reflexivity ].
    - discriminate. }
  induction components as [| c rest [IHlen [IHsum IHnth]]].
  - split; [ reflexivity | split; [ reflexivity |] ].
    intros [| i] e H; discriminate.
  - rewrite parse_components_cons. cbn [filter].
    destruct (readable fromutc c) eqn:Hr; cbn [app]; [| auto ].
    destruct (readable_inv fromutc c Hr) as [Hn [s [t [Hs [Ht [Hcs Hct]]]]]].
    unfold parse_event. rewrite Hs, Ht. cbn [dt_of bind].
    rewrite (parse_start_converts fromutc localize _ Hcs).
    rewrite (parse_end_converts fromutc localize _ Hct).
    cbn [bind app List.length map summary]. rewrite IHlen, IHsum.
    split; [ reflexivity | split; [ reflexivity |] ].
    intros [| i] e H; cbn [nth_error] in *.
    + injection H as <-. exists c, s, t. cbn [ev_start ev_end].
      repeat split; trivial.
      * apply (Hval 0 min_time s eq_refl Hcs).
      * apply (Hval (us_per_day - 1) max_time t eq_refl Hct).
    + apply IHnth. exact H.
Qed.

(** ** All-day entries *)

(** X14. An all-day entry that [parse_ics] reads (DTSTART and DTEND given as
    dates, from 0001-01-02 to 9999-12-30) blocks every day from its first to
    its last date: on such a day the Day Availability Search finds no slot
    for a meeting of positive length. *)
Theorem all_day_entry_blocks_its_days
    (fromutc localize : Z -> Z) (from_ical : string -> attempt (list Component))
    (file : string) (components : list Component)
    (c : Component) (first_day last_day : Z)
    (date : datetime) (pt : time) (d : Z) :
  business_hours_uniform localize ->
  offsets_within_an_hour localize ->
  time_valid pt ->
  0 < d ->
  from_ical file = Done components ->
  In c components ->
  c_name c = "VEVENT"%string ->
  c_dtstart c = Some (Property (DateValue first_day)) ->
  c_dtend c = Some (Property (DateValue last_day)) ->
  ymd2ord 1 1 2 <= first_day ->
  last_day <= ymd2ord 9999 12 30 ->
  first_day <= toordinal date <= last_day ->
  exists events,
    parse_ics fromutc localize from_ical file = Done events
    /\ find_available_slot_on_day localize date pt d events = None.
Proof.
  intros Hzone Hhour Hv Hd Hfile Hin Hname Hstart Hend Hlow Hhigh Hdays.
  unfold parse_ics. rewrite Hfile.
  exists (parse_components fromutc localize components).
  split; [ reflexivity |].
  set (e := mkEvent (summary_of c)
                    (EST_localize localize (combine first_day min_time))
                    (EST_localize localize (combine last_day max_time))).
  assert (In e (parse_components fromutc localize components)) as He.
  { apply (parse_components_In fromutc localize components c
             (DateValue first_day) (DateValue last_day)); trivial.
    - apply (parse_start_converts fromutc localize (DateValue first_day)).
      cbn [value_converts]. apply andb_true_iff. rewrite !Z.leb_le. lia.
    - apply (parse_end_converts fromutc localize (DateValue last_day)).
      cbn [value_converts]. apply andb_true_iff. rewrite !Z.leb_le. lia. }
  destruct (find_available_slot_on_day localize date pt d
              (parse_components fromutc localize components)) as [s |] eqn:Hs;
    [| reflexivity ].
  exfalso.
  pose proof (find_available_slot_on_day_free _ _ _ _ _ _ Hs) as Hfree.
  pose proof (has_conflict_false _ _ _ Hfree He) as Hov.
  destruct (find_available_slot_on_day_probe _ _ _ _ _ _ Hs)
    as [k [Hsk Hfit]].
  apply (probe_fits_clock localize date pt d k Hzone Hv) in Hfit.
  destruct Hfit as [Hlt Hle].
  assert (overlaps s e = true) as Hyes; [| congruence ].
  apply overlaps_spec. subst s.
  destruct (utc_probe (search_start localize date pt) d k) as [-> ->].
  rewrite search_start_clock.
  pose proof (search_clock_range pt Hv) as Hc.
  unfold e, EST_localize, utc.
  cbn [ev_start ev_end wall utcoffset].
  change (combine first_day min_time) with (first_day * us_per_day + 0).
  change (combine last_day max_time)
    with (last_day * us_per_day + (us_per_day - 1)).
  pose proof (Hhour (last_day * us_per_day + (us_per_day - 1))
                (toordinal date * us_per_day + search_clock pt)) as H1.
  pose proof (Hhour (toordinal date * us_per_day + search_clock pt)
                (first_day * us_per_day + 0)) as H2.
  set (off_s := localize (toordinal date * us_per_day + search_clock pt))
    in *.
  set (off_e := localize (last_day * us_per_day + (us_per_day - 1))) in *.
  set (off_b := localize (first_day * us_per_day + 0)) in *.
  clearbody off_s off_e off_b.
  pose proof half_hour_pos as H30.
  assert (0 <= Z.of_nat k * timedelta_minutes 30) as Hk by nia.
  set (step := Z.of_nat k * timedelta_minutes 30) in *. clearbody step.
  set (clock := search_clock pt) in *. clearbody clock.
  set (o := toordinal date) in *. clearbody o.
  clear - Hc Hlt Hle H1 H2 Hk Hd Hdays.
  unfold business_open, business_close, timedelta_minutes, us_per_day,
    us_per_hour, us_per_minute, us_per_second in *.
  split; lia.
Qed.

Lemma all_day_entry_blocks_its_days_witness :
  exists events,
    parse_ics EST_winter EST_winter
      (fun _ =>
         Done (walk [mkComponent "VEVENT"
                       (Some (Property (DateValue (toordinal monday_jan5))))
                       (Some (Property (DateValue (toordinal monday_jan5))))
                       (Some "Holiday"%string)]))
      "BEGIN:VCALENDAR"
    = Done events
    /\ find_available_slot_on_day EST_winter monday_jan5 t0900 60 events
       = None.
Proof.
  apply (all_day_entry_blocks_its_days EST_winter EST_winter
           (fun _ =>
              Done (walk [mkComponent "VEVENT"
                            (Some (Property
                                     (DateValue (toordinal monday_jan5))))
                            (Some (Property
                                     (DateValue (toordinal monday_jan5))))
                            (Some "Holiday"%string)]))
           "BEGIN:VCALENDAR"
           (walk [mkComponent "VEVENT"
                    (Some (Property (DateValue (toordinal monday_jan5))))
                    (Some (Property (DateValue (toordinal monday_jan5))))
                    (Some "Holiday"%string)])
           (mkComponent "VEVENT"
              (Some (Property (DateValue (toordinal monday_jan5))))
              (Some (Property (DateValue (toordinal monday_jan5))))
              (Some "Holiday"%string))
           (toordinal monday_jan5) (toordinal monday_jan5)).
  - intros ordinal t Ht. reflexivity.
  - intros x y. vm_compute. discriminate.
  - vm_compute. intuition discriminate.
  - lia.
  - reflexivity.
  - right. left. reflexivity.
  - reflexivity.
  - reflexivity.
  - reflexivity.
  - vm_compute. discriminate.
  - vm_compute. discriminate.
  - lia.
Defined.

(** ** Exporting and reading back *)










(** ** What the search reads of the busy events *)

Lemma has_conflict_instants (slot : Slot) (events events' : list Event) :
  map event_instants events = map event_instants events' ->
  has_conflict slot events = has_conflict slot events'.
Proof.
  rewrite !has_conflict_existsb. revert events'.
  induction events as [| e rest IH]; intros [| e' rest'] H;
    try discriminate; [ reflexivity |].
  cbn [map] in H. injection H as Hs He Hrest.
  cbn [existsb]. rewrite (IH rest' Hrest).
  rewrite (overlaps_instants slot e e'); [ reflexivity |].
  unfold event_instants. congruence.
Qed.

Lemma scan_ext (fuel : nat) (current_time day_end : datetime) (d : Z)
    (events events' : list Event) :
  (forall slot, has_conflict slot events = has_conflict slot events') ->
  scan fuel current_time day_end d events
  = scan fuel current_time day_end d events'.
Proof.
  intros Hsame. revert current_time.
  induction fuel as [| fuel IH]; intros current_time; [ reflexivity |].
  rewrite !scan_S. cbv zeta. rewrite Hsame, IH. reflexivity.
Qed.

Lemma nearby_loop_ext (localize : Z -> Z) (offsets : list Z)
    (base_date : datetime) (pt : time) (d : Z) (events events' : list Event)
    (end_date start_date : datetime) :
  (forall date,
     find_available_slot_on_day localize date pt d events
     = find_available_slot_on_day localize date pt d events') ->
  nearby_loop localize offsets base_date pt d events end_date start_date
  = nearby_loop localize offsets base_date pt d events' end_date start_date.
Proof.
  intros Hsame. induction offsets as [| w rest IH]; [ reflexivity |].
  cbn [nearby_loop]. rewrite Hsame, IH. reflexivity.
Qed.

Lemma collect_slots_ext (localize : Z -> Z) (candidates : list datetime)
    (pt : time) (d : Z) (events events' : list Event)
    (end_date now : datetime) :
  (forall slot, has_conflict slot events = has_conflict slot events') ->
  collect_slots localize candidates pt d events end_date now
  = collect_slots localize candidates pt d events' end_date now.
Proof.
  intros Hsame.
  assert (forall date,
            find_available_slot_on_day localize date pt d events
            = find_available_slot_on_day localize date pt d events') as Hday
    by (intros date; unfold find_available_slot_on_day;
        now apply scan_ext).
  induction candidates as [| c rest IH]; [ reflexivity |].
  rewrite !collect_slots_cons, Hday, IH.
  unfold find_slot_on_nearby_dates.
  rewrite (nearby_loop_ext localize week_offsets c pt d events events'
             end_date now Hday).
  reflexivity.
Qed.

(** X17. The run reads nothing of a busy event but its two instants: two
    calendars whose events have, in order, the same start and end instants
    give the same output, whatever their labels and zones; so a calendar
    normalized beforehand gives the output of the calendar as given. *)
Theorem find_optimal_slots_reads_instants_only
    (fromutc localize : Z -> Z) (now : datetime)
    (events events' : list Event) (pt : time) (d : Z) (recurrence : string)
    (months_ahead : Z) :
  map event_instants events = map event_instants events' ->
  find_optimal_slots fromutc localize now events pt d recurrence months_ahead
  = find_optimal_slots fromutc localize now events' pt d recurrence
                       months_ahead
  /\ find_optimal_slots fromutc localize now
       (normalize_events_timezone fromutc events) pt d recurrence months_ahead
     = find_optimal_slots fromutc localize now events pt d recurrence
                          months_ahead.
Proof.
  intros Hinst.
  assert (forall evs,
            map event_instants (normalize_events_timezone fromutc evs)
            = map event_instants evs) as Hnorm.
  { intros evs. unfold normalize_events_timezone. rewrite map_map.
    apply map_ext. intros e. unfold event_instants. cbn [ev_start ev_end].
    now rewrite !utc_astimezone. }
  unfold find_optimal_slots.
  destruct (generate_candidate_dates now (add_relativedelta now months_ahead)
              recurrence) as [candidates | err]; [| split; reflexivity ].
  split; f_equal; apply collect_slots_ext; intros slot;
    apply has_conflict_instants; rewrite !Hnorm; trivial.
Qed.

Lemma find_optimal_slots_reads_instants_only_witness :
  find_optimal_slots EST_winter EST_winter monday_jan5 [busy_jan5] t0900 60
                     "Weekly" 1
  = find_optimal_slots EST_winter EST_winter monday_jan5
      [mkEvent "Renamed" (astimezone_UTC (ev_start busy_jan5))
               (astimezone_UTC (ev_end busy_jan5))]
      t0900 60 "Weekly" 1
  /\ find_optimal_slots EST_winter EST_winter monday_jan5
       (normalize_events_timezone EST_winter [busy_jan5]) t0900 60
       "Weekly" 1
     = find_optimal_slots EST_winter EST_winter monday_jan5 [busy_jan5]
                          t0900 60 "Weekly" 1.
Proof.
  apply (find_optimal_slots_reads_instants_only EST_winter EST_winter
           monday_jan5 [busy_jan5]
           [mkEvent "Renamed" (astimezone_UTC (ev_start busy_jan5))
                    (astimezone_UTC (ev_end busy_jan5))]
           t0900 60 "Weekly" 1).
  vm_compute. reflexivity.
Defined.

(** ** The dates of the output *)

Lemma collect_slots_origin (localize : Z -> Z) (candidates : list datetime)
    (pt : time) (d : Z) (events : list Event) (end_date now : datetime)
    (s : Slot) :
  In s (collect_slots localize candidates pt d events end_date now) ->
  exists c,
    In c candidates
    /\ (find_available_slot_on_day localize c pt d events = Some s
        \/ find_slot_on_nearby_dates localize c pt d events end_date now
           = Some s).
Proof.
  induction candidates as [| c rest IH]; [ intros [] |].
  rewrite collect_slots_cons.
  destruct (find_available_slot_on_day localize c pt d events)
    as [slot |] eqn:Hday.
  - intros [<- | Hin].
    + exists c. split; [ now left | now left ].
    + destruct (IH Hin) as [c' [Hc' H]].
      exists c'. split; [ now right | exact H ].
  - destruct (find_slot_on_nearby_dates localize c pt d events end_date now)
      as [slot |] eqn:Hnear.
    + intros [<- | Hin].
      * exists c. split; [ now left | now right ].
      * destruct (IH Hin) as [c' [Hc' H]].
        exists c'. split; [ now right | exact H ].
    + intros Hin. destruct (IH Hin) as [c' [Hc' H]].
      exists c'. split; [ now right | exact H ].
Qed.

Lemma find_slot_on_nearby_dates_week (localize : Z -> Z)
    (base_date : datetime) (pt : time) (d : Z) (events : list Event)
    (end_date start_date : datetime) (s : Slot) :
  business_hours_uniform localize ->
  time_valid pt ->
  find_slot_on_nearby_dates localize base_date pt d events end_date start_date
  = Some s ->
  exists w : Z,
    1 <= Z.abs w <= 4
    /\ toordinal (start s) = toordinal base_date + 7 * w.
Proof.
  intros Hzone Hv Hs. unfold find_slot_on_nearby_dates in Hs.
  apply nearby_loop_Some in Hs. destruct Hs as [i [w [Hnth [Hatt _]]]].
  assert (In w week_offsets) as Hin by (eapply nth_error_In; eauto).
  unfold fallback_attempt in Hatt. cbv zeta in Hatt.
  destruct (_ && _); [| discriminate ].
  change (w * 7 * us_per_day) with (timedelta_weeks w) in Hatt.
  pose proof (day_slot_lies_on_candidate _ _ _ _ _ _ Hzone Hv Hatt) as Hday.
  rewrite toordinal_dt_add_weeks in Hday.
  exists w. split; [| exact Hday ].
  unfold week_offsets in Hin. simpl in Hin.
  repeat (destruct Hin as [<- | Hin]; [ simpl; lia |]). contradiction.
Qed.

(** The weekday of the candidates of a pattern. *)
Lemma candidate_weekday (start_date end_date : datetime)
    (recurrence : string) (candidates : list datetime) (c : datetime) :
  generate_candidate_dates start_date end_date recurrence
  = Returns candidates ->
  In c candidates ->
  weekday (toordinal c)
  = if String.eqb recurrence "First Thursday of each month" then TH
    else if String.eqb recurrence "Last Friday of each month" then FR
    else weekday (toordinal start_date).
Proof.
  unfold generate_candidate_dates. intros Hgen Hc.
  destruct (String.eqb recurrence "First Thursday of each month").
  { injection Hgen as <-.
    assert (0 <= TH < 7) as Hw by (unfold TH; lia).
    apply (rrule_monthly_spec _ _ _ (first_weekday_within_month TH Hw)) in Hc.
    destruct Hc as [k [-> _]].
    destruct (month_occurrence_spec (first_weekday_of_month TH)
                (replace_microsecond0 start_date)
                (nth_month (month_of_date start_date) k)) as [_ [-> _]].
    apply (first_weekday_of_month_spec TH _ _ Hw). }
  destruct (String.eqb recurrence "Last Friday of each month").
  { injection Hgen as <-.
    assert (0 <= FR < 7) as Hw by (unfold FR; lia).
    apply (rrule_monthly_spec _ _ _ (last_weekday_within_month FR Hw)) in Hc.
    destruct Hc as [k [-> _]].
    destruct (month_occurrence_spec (last_weekday_of_month FR)
                (replace_microsecond0 start_date)
                (nth_month (month_of_date start_date) k)) as [_ [-> _]].
    apply (last_weekday_of_month_spec FR _ _ Hw). }
  assert (exists interval,
            0 < interval
            /\ candidates = rrule_weekly interval start_date end_date)
    as [interval [Hpos ->]].
  { destruct (String.eqb recurrence "Every two weeks");
      injection Hgen as <-; [ exists 2 | exists 1 ]; split; trivial; lia. }
  unfold rrule_weekly, weeks_fuel in Hc. cbv zeta in Hc.
  rewrite (rrule_weekly_iter_map _ interval end_date _ Hpos eq_refl) in Hc.
  apply in_map_iff in Hc. destruct Hc as [k [<- _]].
  replace (Z.of_nat k * timedelta_weeks interval)
    with (timedelta_weeks (Z.of_nat k * interval))
    by (unfold timedelta_weeks; ring).
  rewrite toordinal_dt_add_weeks, weekday_plus_weeks.
  now destruct (replace_microsecond0_spec start_date) as [-> _].
Qed.

(** X18. Every slot of a run starts on a candidate date or a whole number of
    weeks, at most four, before or after one; so it falls on the weekday of
    its pattern: a Thursday for "First Thursday of each month", a Friday for
    "Last Friday of each month", and the weekday of [now] for the weekly
    patterns. *)
Theorem output_slots_keep_the_pattern_weekday
    (fromutc localize : Z -> Z) (now : datetime)
    (events : list Event) (pt : time) (d : Z) (recurrence : string)
    (months_ahead : Z) (slots : list Slot) (s : Slot) :
  business_hours_uniform localize ->
  time_valid pt ->
  find_optimal_slots fromutc localize now events pt d recurrence months_ahead
  = Returns slots ->
  In s slots ->
  (exists candidates c w,
     generate_candidate_dates now (add_relativedelta now months_ahead)
                              recurrence
     = Returns candidates
     /\ In c candidates
     /\ Z.abs w <= 4
     /\ toordinal (start s) = toordinal c + 7 * w)
  /\ weekday (toordinal (start s))
     = if String.eqb recurrence "First Thursday of each month" then TH
       else if String.eqb recurrence "Last Friday of each month" then FR
       else weekday (toordinal now).
Proof.
  intros Hzone Hv Hret Hs. unfold find_optimal_slots in Hret.
  destruct (generate_candidate_dates now (add_relativedelta now months_ahead)
              recurrence) as [candidates | err] eqn:Hgen; [| discriminate ].
  injection Hret as <-.
  assert (exists c w,
            In c candidates /\ Z.abs w <= 4
            /\ toordinal (start s) = toordinal c + 7 * w)
    as [c [w [Hc [Hw Hord]]]].
  { destruct (collect_slots_origin _ _ _ _ _ _ _ _ Hs)
      as [c [Hc [Hday | Hnear]]].
    - exists c, 0. repeat split; trivial; [ simpl; lia |].
      rewrite (day_slot_lies_on_candidate _ _ _ _ _ _ Hzone Hv Hday). lia.
    - destruct (find_slot_on_nearby_dates_week _ _ _ _ _ _ _ _ Hzone Hv
                  Hnear) as [w [Hw Hord]].
      exists c, w. repeat split; trivial. lia. }
  split.
  - exists candidates, c, w. repeat split; trivial.
  - rewrite Hord, weekday_plus_weeks.
    apply (candidate_weekday _ _ _ _ _ Hgen Hc).
Qed.

Lemma output_slots_keep_the_pattern_weekday_witness :
  (exists candidates c w,
     generate_candidate_dates monday_jan5 (add_relativedelta monday_jan5 1)
                              "Weekly"
     = Returns candidates
     /\ In c candidates
     /\ Z.abs w <= 4
     /\ toordinal (start (slot_2026 1 12 t0900 60)) = toordinal c + 7 * w)
  /\ weekday (toordinal (start (slot_2026 1 12 t0900 60)))
     = if String.eqb "Weekly" "First Thursday of each month" then TH
       else if String.eqb "Weekly" "Last Friday of each month" then FR
       else weekday (toordinal monday_jan5).
Proof.
  apply (output_slots_keep_the_pattern_weekday EST_winter EST_winter
           monday_jan5 [busy_jan5] t0900 60 "Weekly" 1
           [slot_2026 1 12 t0900 60; slot_2026 1 12 t0900 60;
            slot_2026 1 19 t0900 60; slot_2026 1 26 t0900 60;
            slot_2026 2 2 t0900 60]).
  - intros ordinal t Ht. reflexivity.
  - vm_compute. intuition discriminate.
  - vm_compute. reflexivity.
  - left. reflexivity.
Defined.
